(** * SAM 2 server for TouchDesigner: prompt store and coordinator loop

    A shallow embedding of [sam_server_syphon.py]: the [PromptState] class
    with its re-entrant lock, the OSC handlers that scale normalized
    coordinates to the working resolution, [process_frame_with_sam], and the
    body of the [while running] loop of [main]. *)

From Stdlib Require Import ZArith List String Bool Lia.
From Stdlib Require Import Floats.SpecFloat.
Import ListNotations.
Local Open Scope string_scope.
Local Open Scope list_scope.
Local Open Scope Z_scope.

(** ** Configuration constants (module level of the script) *)

Definition WIDTH : Z := 1920.
Definition HEIGHT : Z := 1080.

(** ** Python numbers

    An OSC argument reaches a handler as a Python [int] or a Python [float]
    (an IEEE 754 binary64).  Floats are [spec_float] with [prec = 53] and
    [emax = 1024]; their product is [SFmul], rounded to nearest even. *)

Module Py.

Definition prec : Z := 53.
Definition emax : Z := 1024.

Inductive num :=
  | PyInt (n : Z)
  | PyFloat (f : spec_float).

Inductive exn :=
  | ValueError      (* int(nan), argmax of an empty array *)
  | OverflowError   (* int(inf) *)
  | IndexError
  | TypeError
  | RuntimeError    (* raised by the inference engine *)
  | Cv2Error.       (* cv2.error, raised by the drawing calls *)

(** [float(n)] for an int operand of a mixed product. *)
Definition float_of_int (n : Z) : spec_float :=
  binary_normalize prec emax n 0 false.

(** [x * k] for an int constant [k]: int times int stays an int, float times
    int converts the int and multiplies in binary64. *)
Definition mul_int (x : num) (k : Z) : num :=
  match x with
  | PyInt n => PyInt (n * k)
  | PyFloat f => PyFloat (SFmul prec emax f (float_of_int k))
  end.

(** Integer part of a finite float, rounding toward zero. *)
Definition trunc_finite (s : bool) (m : positive) (e : Z) : Z :=
  let a := match e with
           | Zneg p => Z.shiftr (Zpos m) (Zpos p)
           | _ => Z.shiftl (Zpos m) e
           end in
  if s then - a else a.

(** [int(x)]: raises on NaN and on infinities. *)
Definition int (x : num) : exn + Z :=
  match x with
  | PyInt n => inr n
  | PyFloat S754_nan => inl ValueError
  | PyFloat (S754_infinity _) => inl OverflowError
  | PyFloat (S754_zero _) => inr 0
  | PyFloat (S754_finite s m e) => inr (trunc_finite s m e)
  end.

(** The float written [0.1] in Python source, and the binary32 [0.1] that an
    OSC [f] argument carries, widened to binary64. *)
Definition f_0_1 : spec_float := S754_finite false 7205759403792794 (-56).
Definition f_0_1_single : spec_float := S754_finite false 13421773 (-27).
Definition f_0_5 : spec_float := S754_finite false 4503599627370496 (-53).
Definition f_1_0 : spec_float := S754_finite false 4503599627370496 (-52).
Definition f_0_0 : spec_float := S754_zero false.

(** A normalized coordinate: an int 0 or 1, or a well-formed binary64 in
    the closed interval from 0.0 to 1.0. *)
Definition in_unit (x : num) : bool :=
  match x with
  | PyInt n => (0 <=? n) && (n <=? 1)
  | PyFloat f =>
      valid_binary prec emax f && SFleb f_0_0 f && SFleb f f_1_0
  end.

End Py.

(** ** PromptState

    [lock] is the recursion level of the [threading.RLock] as seen by the
    thread that runs the method: 0 when free, incremented by every nested
    [with self.lock]. *)

Record PromptState := mkPromptState {
  mode : string;
  points : list (Z * Z);
  labels : list Z;
  box : option (list Z);
  lock : nat;
  needs_update : bool
}.

(** [PromptState.__init__] *)
Definition init : PromptState :=
  {| mode := "auto"; points := []; labels := []; box := None;
     lock := 0; needs_update := false |}.

Definition with_mode (m : string) (s : PromptState) : PromptState :=
  {| mode := m; points := points s; labels := labels s; box := box s;
     lock := lock s; needs_update := needs_update s |}.
Definition with_points (p : list (Z * Z)) (s : PromptState) : PromptState :=
  {| mode := mode s; points := p; labels := labels s; box := box s;
     lock := lock s; needs_update := needs_update s |}.
Definition with_labels (l : list Z) (s : PromptState) : PromptState :=
  {| mode := mode s; points := points s; labels := l; box := box s;
     lock := lock s; needs_update := needs_update s |}.
Definition with_box (b : option (list Z)) (s : PromptState) : PromptState :=
  {| mode := mode s; points := points s; labels := labels s; box := b;
     lock := lock s; needs_update := needs_update s |}.
Definition with_lock_level (n : nat) (s : PromptState) : PromptState :=
  {| mode := mode s; points := points s; labels := labels s; box := box s;
     lock := n; needs_update := needs_update s |}.
Definition with_needs_update (b : bool) (s : PromptState) : PromptState :=
  {| mode := mode s; points := points s; labels := labels s; box := box s;
     lock := lock s; needs_update := b |}.

(** ** A state monad that records every intermediate state

    A method body is a sequence of attribute writes; [Act] threads the
    object and logs the state after each write, so that what another thread
    could see between two writes is part of the model. *)

Definition Act (A : Type) : Type :=
  PromptState -> A * PromptState * list PromptState.

Definition ret {A} (a : A) : Act A := fun s => (a, s, []).

Definition bind {A B} (m : Act A) (k : A -> Act B) : Act B :=
  fun s =>
    let '(a, s1, t1) := m s in
    let '(b, s2, t2) := k a s1 in
    (b, s2, t1 ++ t2).

Definition write (f : PromptState -> PromptState) : Act unit :=
  fun s => (tt, f s, [f s]).

Definition read {A} (f : PromptState -> A) : Act A :=
  fun s => (f s, s, []).

Declare Scope act_scope.
Delimit Scope act_scope with act.
Notation "x <- m ;; k" := (bind m (fun x => k))
  (at level 61, m at next level, right associativity) : act_scope.
Notation "m ;; k" := (bind m (fun _ => k))
  (at level 61, right associativity) : act_scope.
Local Open Scope act_scope.

Definition exec {A} (m : Act A) (s : PromptState) : PromptState :=
  snd (fst (m s)).
Definition eval {A} (m : Act A) (s : PromptState) : A :=
  fst (fst (m s)).
Definition trace {A} (m : Act A) (s : PromptState) : list PromptState :=
  snd (m s).

Definition acquire : Act unit := write (fun s => with_lock_level (S (lock s)) s).
Definition release : Act unit := write (fun s => with_lock_level (pred (lock s)) s).

(** [with self.lock: body] *)
Definition with_lock {A} (body : Act A) : Act A :=
  acquire ;; r <- body ;; release ;; ret r.

(** *** Methods of [PromptState] *)

Definition clear : Act unit :=
  with_lock (
    write (with_points []) ;;
    write (with_labels []) ;;
    write (with_box None) ;;
    write (with_needs_update true)).

Definition add_point (x y label : Z) : Act unit :=
  with_lock (
    write (fun s => with_points (points s ++ [(x, y)]) s) ;;
    write (fun s => with_labels (labels s ++ [label]) s) ;;
    write (with_needs_update true)).

Definition set_box (x1 y1 x2 y2 : Z) : Act unit :=
  with_lock (
    write (with_box (Some [x1; y1; x2; y2])) ;;
    write (with_needs_update true)).

Definition set_mode (m : string) : Act unit :=
  with_lock (
    write (with_mode m) ;;
    clear ;;
    write (with_needs_update true)).

Definition consume_update_flag : Act bool :=
  with_lock (
    needs <- read needs_update ;;
    write (with_needs_update false) ;;
    ret needs).

(** ** OSC handlers

    The [int(...)] conversions stand before the handler's [try], so their
    exceptions leave the handler; the [PromptState] method inside the [try]
    raises nothing, and the [except] branch is never taken. *)

Definition handle_mode (m : string) (s : PromptState) : Py.exn + PromptState :=
  inr (exec (set_mode m) s).

Definition handle_point (x y : Py.num) (label : Z) (s : PromptState)
  : Py.exn + PromptState :=
  match Py.int (Py.mul_int x WIDTH) with
  | inl e => inl e
  | inr px =>
      match Py.int (Py.mul_int y HEIGHT) with
      | inl e => inl e
      | inr py => inr (exec (add_point px py label) s)
      end
  end.

Definition handle_box (x1 y1 x2 y2 : Py.num) (s : PromptState)
  : Py.exn + PromptState :=
  match Py.int (Py.mul_int x1 WIDTH) with
  | inl e => inl e
  | inr bx1 =>
  match Py.int (Py.mul_int y1 HEIGHT) with
  | inl e => inl e
  | inr by1 =>
  match Py.int (Py.mul_int x2 WIDTH) with
  | inl e => inl e
  | inr bx2 =>
  match Py.int (Py.mul_int y2 HEIGHT) with
  | inl e => inl e
  | inr by2 => inr (exec (set_box bx1 by1 bx2 by2) s)
  end end end end.

Definition handle_clear (s : PromptState) : Py.exn + PromptState :=
  inr (exec clear s).

(** ** Histories of method calls

    Every method runs under the lock, so what the OSC thread and the main
    loop do to the shared object is a sequence of whole method calls. *)

Inductive call :=
  | Clear
  | AddPoint (x y label : Z)
  | SetBox (x1 y1 x2 y2 : Z)
  | SetMode (m : string).

Inductive op :=
  | Mutation (c : call)
  | ConsumeDirty.

Definition do_call (c : call) : Act unit :=
  match c with
  | Clear => clear
  | AddPoint x y label => add_point x y label
  | SetBox x1 y1 x2 y2 => set_box x1 y1 x2 y2
  | SetMode m => set_mode m
  end.

Definition do_op (o : op) : Act unit :=
  match o with
  | Mutation c => do_call c
  | ConsumeDirty => _ <- consume_update_flag ;; ret tt
  end.

Definition apply_calls (cs : list call) (s : PromptState) : PromptState :=
  fold_left (fun st c => exec (do_call c) st) cs s.

(** ** The prompt as [process_frame_with_sam] reads it under the lock

    An empty list is falsy, so an empty [points], [labels] or [box] is read
    as [None]. *)

Record Snapshot := mkSnapshot {
  snap_mode : string;
  snap_points : option (list (Z * Z));
  snap_labels : option (list Z);
  snap_box : option (list Z)
}.

Definition truthy {A} (l : list A) : option (list A) :=
  match l with
  | [] => None
  | _ :: _ => Some l
  end.

Definition snapshot : Act Snapshot :=
  with_lock (
    m <- read mode ;;
    p <- read (fun s => truthy (points s)) ;;
    l <- read (fun s => truthy (labels s)) ;;
    b <- read (fun s => match box s with
                        | Some b => truthy b
                        | None => None
                        end) ;;
    ret (mkSnapshot m p l b)).

(** ** The coordinator

    Images, masks and scores are numpy values; the numpy and OpenCV calls
    that build an overlay and the SAM 2 predictor are parameters of the
    model. *)

Definition color : Type := Z * Z * Z.

Class Imaging (Frame Mask Score : Type) := {
  (** [np.zeros((HEIGHT, WIDTH, 3), dtype=np.uint8)] *)
  zeros : Frame;
  (** [viz[mask] = viz[mask] * 0.5 + np.array(c) * 0.5] on a copy of [viz] *)
  blend : Frame -> Mask -> color -> Frame;
  (** [cv2.circle(viz, (x, y), 8, c, -1)]: draws in place and returns, or
      raises, as it does for a coordinate that does not fit a C [int] *)
  circle : Frame -> Z * Z -> color -> Py.exn + Frame;
  (** [cv2.rectangle(viz, (x1, y1), (x2, y2), c, 2)], likewise *)
  rectangle : Frame -> Z * Z -> Z * Z -> color -> Py.exn + Frame;
  (** [np.argmax]; [None] when it raises [ValueError] on an empty array *)
  argmax : list Score -> option nat;
  (** [float(np.sum(mask)) / (WIDTH * HEIGHT)] *)
  area : Mask -> Score
}.

Inductive osc_arg (Score : Type) :=
  | OscInt (n : Z)
  | OscFloat (x : Score).
Arguments OscInt {Score} n.
Arguments OscFloat {Score} x.

Definition osc_msg (Score : Type) : Type := string * osc_arg Score.

Section Coordinator.

Context {Frame Mask Score : Type} `{Img : Imaging Frame Mask Score}.

(** The SAM 2 image predictor.  Each call either returns or raises. *)
Record Predictor := mkPredictor {
  set_image : Frame -> option Py.exn;
  predict_points :
    Frame -> list (Z * Z) -> option (list Z) -> Py.exn + (list Mask * list Score);
  predict_box :
    Frame -> list Z -> Py.exn + (list Mask * list Score)
}.

(** What a call leaves behind: the messages it sent on the OSC client, and
    either its return value or the exception that ended it.  Sending a UDP
    datagram is taken to return. *)
Definition outcome : Type := (Py.exn + Frame) * list (osc_msg Score).

(** The loop [for (x, y), label in zip(points, labels)]: the first circle
    that raises ends it. *)
Fixpoint draw_points (viz : Frame) (pl : list ((Z * Z) * Z))
  : Py.exn + Frame :=
  match pl with
  | [] => inr viz
  | (xy, label) :: rest =>
      match circle viz xy (if label =? 1 then (0, 255, 0) else (255, 0, 0)) with
      | inl e => inl e
      | inr viz' => draw_points viz' rest
      end
  end.

(** The body of [process_frame_with_sam] after the prompt has been read. *)
Definition segment (predictor : Predictor) (snap : Snapshot) (frame : Frame)
  : outcome :=
  match set_image predictor frame with
  | Some e => (inl e, [])
  | None =>
    if (snap_mode snap =? "auto")%string then
      (inr frame, [("/sam/masks/count", OscInt 0)])
    else
    match (snap_mode snap =? "point")%string, snap_points snap with
    | true, Some pts =>
        match predict_points predictor frame pts (snap_labels snap) with
        | inl e => (inl e, [])
        | inr (masks, scores) =>
            match argmax scores with
            | None => (inl Py.ValueError, [])
            | Some i =>
                match nth_error masks i, nth_error scores i with
                | Some best_mask, Some best_score =>
                    match snap_labels snap with
                    | None => (inl Py.TypeError, [])
                    | Some lbls =>
                        let viz := blend frame best_mask (0, 255, 0) in
                        match draw_points viz (combine pts lbls) with
                        | inl e => (inl e, [])
                        | inr viz =>
                            (inr viz,
                             [("/sam/masks/count", OscInt 1);
                              ("/sam/mask/0/score", OscFloat best_score);
                              ("/sam/mask/0/area", OscFloat (area best_mask))])
                        end
                    end
                | _, _ => (inl Py.IndexError, [])
                end
            end
        end
    | _, _ =>
    match (snap_mode snap =? "box")%string, snap_box snap with
    | true, Some b =>
        match predict_box predictor frame b with
        | inl e => (inl e, [])
        | inr (masks, scores) =>
            match nth_error masks 0, b with
            | Some mask, x1 :: y1 :: x2 :: y2 :: _ =>
                let viz := blend frame mask (0, 255, 255) in
                match rectangle viz (x1, y1) (x2, y2) (0, 255, 255) with
                | inl e => (inl e, [])
                | inr viz =>
                    match nth_error scores 0 with
                    | Some score0 =>
                        (inr viz,
                         [("/sam/masks/count", OscInt 1);
                          ("/sam/mask/0/score", OscFloat score0);
                          ("/sam/mask/0/area", OscFloat (area mask))])
                    | None =>
                        (* [scores[0]] is evaluated after the count is sent *)
                        (inl Py.IndexError, [("/sam/masks/count", OscInt 1)])
                    end
                end
            | _, _ => (inl Py.IndexError, [])
            end
        end
    | _, _ => (inr frame, [("/sam/masks/count", OscInt 0)])
    end
    end
  end.

Definition process_frame_with_sam (predictor : Predictor) (frame : Frame)
  : Act outcome :=
  snap <- snapshot ;;
  ret (segment predictor snap frame).

(** What the [try] around the Syphon client leaves in [frame].  A frame
    that is read is converted, flipped and copied into [last_frame] in one
    go: [cv2.flip] and [ndarray.copy] of a converted image are taken to
    return, so an exception can only leave [frame] at [None]. *)
Inductive SyphonRead :=
  | NoFrame                (* no client, no new frame, or a [None] image *)
  | ReadError              (* an exception before [frame] is assigned *)
  | NewFrame (f : Frame).  (* converted to RGB and flipped *)

(** The local variables of [main] that live across iterations, and the
    module-level [prompt_state]. *)
Record LoopState := mkLoopState {
  frame_count : Z;
  last_frame : option Frame;
  last_mask_viz : option Frame;
  prompt_state : PromptState
}.

(** What the rest of the program does during one iteration: the handler
    calls the OSC thread completes before [consume_update_flag] takes the
    lock, those it completes between that call and the read of the prompt
    in [process_frame_with_sam], the Syphon read, and how the predictor
    behaves. *)
Record TickInput := mkTickInput {
  osc_before : list call;
  osc_between : list call;
  syphon : SyphonRead;
  predictor : Predictor
}.

Record TickOutput := mkTickOutput {
  frame_used : Frame;            (* [frame] after the fallback *)
  inference_ran : bool;          (* the [if needs_update or ...] test *)
  raised : option Py.exn;        (* caught by [except Exception] *)
  mask_viz : Frame;              (* handed to the Syphon server *)
  telemetry : list (osc_msg Score)      (* sent on [osc_send] *)
}.

Definition start : LoopState :=
  mkLoopState 0 None None init.

(** One iteration of [while running]. *)
Definition tick (st : LoopState) (inp : TickInput) : LoopState * TickOutput :=
  let last_frame' :=
    match syphon inp with
    | NewFrame f => Some f
    | _ => last_frame st
    end in
  let frame :=
    match syphon inp with
    | NewFrame f => f
    | _ =>
        match last_frame st with
        | Some f => f
        | None => zeros
        end
    end in
  let ps := apply_calls (osc_before inp) (prompt_state st) in
  let needs_update := eval consume_update_flag ps in
  let ps := exec consume_update_flag ps in
  let ps := apply_calls (osc_between inp) ps in
  if needs_update || (frame_count st mod 30 =? 0) then
    let res := eval (process_frame_with_sam (predictor inp) frame) ps in
    let ps := exec (process_frame_with_sam (predictor inp) frame) ps in
    match res with
    | (inr viz, sent) =>
        (mkLoopState (frame_count st + 1) last_frame' (Some viz) ps,
         mkTickOutput frame true None viz sent)
    | (inl e, sent) =>
        (mkLoopState (frame_count st + 1) last_frame' (last_mask_viz st) ps,
         mkTickOutput frame true (Some e) frame sent)
    end
  else
    let viz :=
      match last_mask_viz st with
      | Some v => v
      | None => frame
      end in
    (mkLoopState (frame_count st + 1) last_frame' (last_mask_viz st) ps,
     mkTickOutput frame false None viz []).

(** The loop, for as many iterations as [running] stays true. *)
Fixpoint run (st : LoopState) (inps : list TickInput)
  : LoopState * list TickOutput :=
  match inps with
  | [] => (st, [])
  | inp :: rest =>
      let '(st1, out) := tick st inp in
      let '(st2, outs) := run st1 rest in
      (st2, out :: outs)
  end.

End Coordinator.

(** ** A concrete instance

    Pictures as terms: every drawing call is a constructor, so two overlays
    are equal only if they were drawn the same way.  Masks are numbered and
    scores are integers (thousandths).  A drawing call raises when one of
    its coordinates is outside the range of a C [int]. *)

Module Demo.

Inductive picture :=
  | Black
  | Camera (n : nat)
  | Blend (p : picture) (mask : nat) (c : color)
  | Circle (p : picture) (xy : Z * Z) (c : color)
  | Rectangle (p : picture) (a b : Z * Z) (c : color).

Definition c_int (n : Z) : bool :=
  (-2147483648 <=? n) && (n <=? 2147483647).

Definition draw_circle (p : picture) (xy : Z * Z) (c : color)
  : Py.exn + picture :=
  if c_int (fst xy) && c_int (snd xy) then inr (Circle p xy c)
  else inl Py.Cv2Error.

Definition draw_rectangle (p : picture) (a b : Z * Z) (c : color)
  : Py.exn + picture :=
  if c_int (fst a) && c_int (snd a) && c_int (fst b) && c_int (snd b)
  then inr (Rectangle p a b c)
  else inl Py.Cv2Error.

(** Index of the first maximum. *)
Fixpoint argmax_from (best : Z) (best_i i : nat) (l : list Z) : nat :=
  match l with
  | [] => best_i
  | x :: rest =>
      if best <? x then argmax_from x i (S i) rest
      else argmax_from best best_i (S i) rest
  end.

Definition argmax_Z (l : list Z) : option nat :=
  match l with
  | [] => None
  | x :: rest => Some (argmax_from x 0%nat 1%nat rest)
  end.

#[export] Instance imaging : Imaging picture nat Z := {|
  zeros := Black;
  blend := Blend;
  circle := draw_circle;
  rectangle := draw_rectangle;
  argmax := argmax_Z;
  area := fun m => Z.of_nat m
|}.

(** A predictor that answers every call. *)
Definition working : @Predictor picture nat Z :=
  mkPredictor
    (fun _ => None)
    (fun _ _ _ => inr ([1%nat; 2%nat], [400; 900]))
    (fun _ _ => inr ([7%nat], [800])).

(** A predictor whose [set_image] raises. *)
Definition broken : @Predictor picture nat Z :=
  mkPredictor
    (fun _ => Some Py.RuntimeError)
    (fun _ _ _ => inl Py.RuntimeError)
    (fun _ _ => inl Py.RuntimeError).

(** A predictor whose [predict] raises after [set_image] went through. *)
Definition predict_fails : @Predictor picture nat Z :=
  mkPredictor
    (fun _ => None)
    (fun _ _ _ => inl Py.RuntimeError)
    (fun _ _ => inl Py.RuntimeError).

Definition quiet (src : @SyphonRead picture) (p : @Predictor picture nat Z)
  : TickInput :=
  mkTickInput [] [] src p.

(** Iteration 0 computes a point overlay on the first camera frame. *)
Definition first : TickInput :=
  mkTickInput [SetMode "point"; AddPoint 3 4 1] [] (NewFrame (Camera 1)) working.

Definition overlay0 : picture :=
  Circle (Blend (Camera 1) 2%nat (0, 255, 0)) (3, 4) (0, 255, 0).

(** Iteration 1 is triggered by a new point and its predictor raises. *)
Definition failing : TickInput :=
  mkTickInput [AddPoint 5 6 0] [] (NewFrame (Camera 2)) broken.

(** Iteration 2 gets no frame and no edit. *)
Definition idle : TickInput := quiet NoFrame working.

Definition after_first : LoopState := fst (tick start first).

End Demo.

(** ** Vocabulary of the properties *)

(** The arguments of the [add_point] calls a state was built from, in call
    order: [sup] explains [s] when the i-th stored point and the i-th stored
    label are those of the i-th call. *)
Definition paired (s : PromptState) (sup : list ((Z * Z) * Z)) : Prop :=
  points s = map fst sup /\ labels s = map snd sup.

(** How an operation changes the list of calls that explain the state. *)
Definition supplied (o : op) (sup : list ((Z * Z) * Z)) : list ((Z * Z) * Z) :=
  match o with
  | Mutation Clear => []
  | Mutation (SetMode _) => []
  | Mutation (AddPoint x y label) => sup ++ [((x, y), label)]
  | Mutation (SetBox _ _ _ _) => sup
  | ConsumeDirty => sup
  end.

Definition add_points (pts : list ((Z * Z) * Z)) : list call :=
  map (fun p => AddPoint (fst (fst p)) (snd (fst p)) (snd p)) pts.

(** A right shift of the mantissa that has dropped no set bit: the round and
    sticky bits are both clear. *)
Definition no_remainder (mrs : shr_record) : Prop :=
  shr_r mrs = false /\ shr_s mrs = false.

(** [consume_update_flag] called [n] times in a row. *)
Definition consume_times (n : nat) (s : PromptState) : PromptState :=
  Nat.iter n (exec consume_update_flag) s.

Section LoopVocabulary.

Context {Frame Mask Score : Type} `{Img : Imaging Frame Mask Score}.

(** The most recent frame the Syphon client delivered during [inps]. *)
Definition last_real (inps : list (@TickInput Frame Mask Score))
  : option Frame :=
  fold_left
    (fun acc inp =>
       match syphon inp with
       | NewFrame f => Some f
       | _ => acc
       end)
    inps None.

Definition delivered (r : @SyphonRead Frame) : bool :=
  match r with
  | NewFrame _ => true
  | _ => false
  end.

(** An iteration whose call of [process_frame_with_sam] returned. *)
Definition computed (out : @TickOutput Frame Score) : bool :=
  inference_ran out &&
  match raised out with
  | None => true
  | Some _ => false
  end.

(** The overlay returned by the most recent call that returned. *)
Definition last_computed (outs : list (@TickOutput Frame Score))
  : option Frame :=
  fold_left
    (fun acc out => if computed out then Some (mask_viz out) else acc)
    outs None.

Definition no_edits (inp : @TickInput Frame Mask Score) : Prop :=
  osc_before inp = [] /\ osc_between inp = [].

(** What [consume_update_flag] returns in the iteration. *)
Definition dirty_read (st : @LoopState Frame)
           (inp : @TickInput Frame Mask Score) : bool :=
  eval consume_update_flag (apply_calls (osc_before inp) (prompt_state st)).

(** The prompt [process_frame_with_sam] reads in the iteration. *)
Definition prompt_read (st : @LoopState Frame)
           (inp : @TickInput Frame Mask Score) : Snapshot :=
  eval snapshot
    (apply_calls (osc_between inp)
       (exec consume_update_flag
          (apply_calls (osc_before inp) (prompt_state st)))).

(** The predictor call made for this prompt raises: [set_image], or the
    [predict] of the point or of the box branch. *)
Definition engine_raises (p : @Predictor Frame Mask Score)
           (snap : Snapshot) (frame : Frame) : Prop :=
  (exists e, set_image p frame = Some e) \/
  (set_image p frame = None /\
   exists pts e,
     snap_mode snap = "point" /\ snap_points snap = Some pts /\
     predict_points p frame pts (snap_labels snap) = inl e) \/
  (set_image p frame = None /\
   exists b e,
     snap_mode snap = "box" /\ snap_box snap = Some b /\
     predict_box p frame b = inl e).

(** The outputs of a run of the loop from its first iteration. *)
Definition outputs (inps : list (@TickInput Frame Mask Score))
  : list TickOutput :=
  snd (run start inps).

(** The overlay a reused-cache iteration hands out. *)
Definition reused (cache : option Frame) (frame : Frame) : Frame :=
  match cache with
  | Some v => v
  | None => frame
  end.

End LoopVocabulary.

(** ** Shutdown signals

    [running] is the module-level flag; [exit_status] is set once the
    process has ended: 1 by [os._exit(1)] in the handler, 0 by the
    [sys.exit(0)] that closes the [finally] block of [main]. *)

Record Process := mkProcess {
  running : bool;
  exit_status : option Z
}.


(** [signal_handler], installed for SIGINT and SIGTERM. *)
Definition signal_handler (p : Process) : Process :=
  match exit_status p with
  | Some _ => p
  | None =>
      if running p then mkProcess false None
      else mkProcess false (Some 1)
  end.

Definition signals (n : nat) (p : Process) : Process :=
  Nat.iter n signal_handler p.

(** The [finally] block, left undisturbed. *)
Definition cleanup (p : Process) : Process :=
  match exit_status p with
  | Some _ => p
  | None => mkProcess false (Some 0)
  end.

(** ** The Syphon input client *)

Section SyphonInput.

Context {Frame : Type} {Server Client : Type}.

(** The lookup of the input server before the loop: the first server with
    the configured name is used; an empty list or any exception leaves
    [syphon_in] at [None]. *)
Definition connect_input (servers_matching_name : Py.exn + list Server)
           (SyphonMetalClient : Server -> Py.exn + Client) : option Client :=
  match servers_matching_name with
  | inl _ => None
  | inr [] => None
  | inr (server_desc :: _) =>
      match SyphonMetalClient server_desc with
      | inl _ => None
      | inr client => Some client
      end
  end.

(** What the client does when the loop asks it for a frame. *)
Inductive ClientAnswer :=
  | HasNewFrameRaises
  | NothingNew                 (* [has_new_frame] is false *)
  | NewFrameImageRaises
  | NewFrameImageNone
  | ConversionRaises           (* texture copy or [cv2.cvtColor] *)
  | Converted (f : Frame).

(** The [if syphon_in is not None: try: ...] block of the loop. *)
Definition read_frame (syphon_in : option Client) (a : ClientAnswer)
  : @SyphonRead Frame :=
  match syphon_in with
  | None => NoFrame
  | Some _ =>
      match a with
      | Converted f => NewFrame f
      | NothingNew => NoFrame
      | NewFrameImageNone => NoFrame
      | HasNewFrameRaises => ReadError
      | NewFrameImageRaises => ReadError
      | ConversionRaises => ReadError
      end
  end.

(** The answer with every failure replaced by [has_new_frame] being false. *)
Definition quiet_answer (a : ClientAnswer) : ClientAnswer :=
  match a with
  | Converted f => Converted f
  | _ => NothingNew
  end.

End SyphonInput.

Section Serving.

Context {Frame Mask Score : Type} `{Img : Imaging Frame Mask Score}.

(** [while running: ...] under signals.  Each iteration comes with the
    number of signals delivered while it runs.  The flag is tested at the
    head of the loop only, so one signal lets the iteration finish; a
    second one ends the process on the spot, and what that iteration had
    done by then is not recorded.  When the flag is found cleared the
    [finally] block runs. *)
Fixpoint serve (p : Process) (st : @LoopState Frame)
         (sched : list (@TickInput Frame Mask Score * nat))
  : Process * LoopState * list (@TickOutput Frame Score) :=
  match sched with
  | [] => (if running p then p else cleanup p, st, [])
  | (inp, k) :: rest =>
      if running p then
        match exit_status (signals k p) with
        | Some _ => (signals k p, st, [])
        | None =>
            let '(st1, out) := tick st inp in
            let '(p2, st2, outs) := serve (signals k p) st1 rest in
            (p2, st2, out :: outs)
        end
      else (cleanup p, st, [])
  end.

(** The iteration the loop runs for a client, its answer, the handler
    calls around the flag read and the predictor. *)
Definition iteration {Client : Type} (syphon_in : option Client)
           (spec : @ClientAnswer Frame * list call * list call
                   * @Predictor Frame Mask Score)
  : @TickInput Frame Mask Score :=
  let '(a, before, between, p) := spec in
  mkTickInput before between (read_frame syphon_in a) p.

End Serving.

(** ** More vocabulary *)

(** The exception [int(...)] raises on a float that is not finite. *)
Definition int_error (f : spec_float) : option Py.exn :=
  match f with
  | S754_nan => Some Py.ValueError
  | S754_infinity _ => Some Py.OverflowError
  | _ => None
  end.


(** [clear] and [set_mode] discard the prompts. *)
Definition is_reset (c : call) : bool :=
  match c with
  | Clear | SetMode _ => true
  | _ => false
  end.

(** The points, the labels and the last box of a list of calls. *)
Definition added_points (cs : list call) : list (Z * Z) :=
  flat_map (fun c => match c with
                     | AddPoint x y _ => [(x, y)]
                     | _ => []
                     end) cs.

Definition added_labels (cs : list call) : list Z :=
  flat_map (fun c => match c with
                     | AddPoint _ _ label => [label]
                     | _ => []
                     end) cs.

Definition last_box (cs : list call) (default : option (list Z))
  : option (list Z) :=
  fold_left (fun b c => match c with
                        | SetBox x1 y1 x2 y2 => Some [x1; y1; x2; y2]
                        | _ => b
                        end) cs default.

(** Two prompt states that differ at most in the flag. *)
Definition same_prompt (s1 s2 : PromptState) : Prop :=
  mode s1 = mode s2 /\ points s1 = points s2 /\ labels s1 = labels s2 /\
  box s1 = box s2 /\ lock s1 = lock s2.

(** The message that reports how many masks were found. *)
Definition count_message {Score : Type} (n : Z) : osc_msg Score :=
  ("/sam/masks/count", OscInt n).

(** Every handler call of a run, in the order the loop sees them. *)
Definition all_calls {Frame Mask Score : Type}
           (inps : list (@TickInput Frame Mask Score)) : list call :=
  flat_map (fun inp => osc_before inp ++ osc_between inp) inps.

(** * Properties *)

(** ** PromptState *)

Lemma exec_add_point (x y label : Z) (s : PromptState) :
  exec (add_point x y label) s =
  mkPromptState (mode s) (points s ++ [(x, y)]) (labels s ++ [label])
                (box s) (lock s) true.
Proof. destruct s; reflexivity. Qed.

Lemma exec_clear (s : PromptState) :
  exec clear s = mkPromptState (mode s) [] [] None (lock s) true.
Proof. destruct s; reflexivity. Qed.

Lemma exec_set_box (x1 y1 x2 y2 : Z) (s : PromptState) :
  exec (set_box x1 y1 x2 y2) s =
  mkPromptState (mode s) (points s) (labels s) (Some [x1; y1; x2; y2])
                (lock s) true.
Proof. destruct s; reflexivity. Qed.

Lemma exec_set_mode (m : string) (s : PromptState) :
  exec (set_mode m) s = mkPromptState m [] [] None (lock s) true.
Proof. destruct s; reflexivity. Qed.

Lemma exec_consume (s : PromptState) :
  exec consume_update_flag s =
  mkPromptState (mode s) (points s) (labels s) (box s) (lock s) false.
Proof. destruct s; reflexivity. Qed.

Lemma eval_consume (s : PromptState) :
  eval consume_update_flag s = needs_update s.
Proof. destruct s; reflexivity. Qed.

Lemma exec_snapshot (s : PromptState) : exec snapshot s = s.
Proof. destruct s; reflexivity. Qed.

Lemma eval_snapshot (s : PromptState) :
  eval snapshot s =
  mkSnapshot (mode s) (truthy (points s)) (truthy (labels s))
             (match box s with Some b => truthy b | None => None end).
Proof. destruct s; reflexivity. Qed.

Lemma do_call_sets_flag (c : call) (s : PromptState) :
  needs_update (exec (do_call c) s) = true.
Proof.
  destruct c; cbn [do_call].
  - now rewrite exec_clear.
  - now rewrite exec_add_point.
  - now rewrite exec_set_box.
  - now rewrite exec_set_mode.
Qed.

(** C3 (as the code has it).  [add_point] makes no check of the label: for
    every label, 0 or 1 or any other integer, the point is appended to
    [points], the label to [labels], the flag is set and nothing else
    changes; and [handle_point] either raises in [int(...)], whatever the
    label is, or appends the scaled point with the label it was given. *)
Theorem add_point_accepts_every_label (x y label : Z) (s : PromptState) :
  let s' := exec (add_point x y label) s in
  (points s' = points s ++ [(x, y)] /\
   labels s' = labels s ++ [label] /\
   needs_update s' = true /\
   mode s' = mode s /\ box s' = box s /\ lock s' = lock s) /\
  forall fx fy : Py.num,
    (exists e, forall label', handle_point fx fy label' s = inl e) \/
    (exists px py,
        handle_point fx fy label s = inr (exec (add_point px py label) s)).
Proof.
  cbn zeta. rewrite exec_add_point. cbn. repeat split; trivial.
  intros fx fy. unfold handle_point.
  destruct (Py.int (Py.mul_int fx WIDTH)) as [e | px].
  - left. now exists e.
  - destruct (Py.int (Py.mul_int fy HEIGHT)) as [e | py].
    + left. now exists e.
    + right. now exists px, py.
Qed.

(** C3, refuted as stated: a point sent with label 2 is stored like any
    other; the handler returns normally and the stored label is 2. *)
Lemma label_2_is_stored :
  exists s',
    handle_point (Py.PyFloat Py.f_0_5) (Py.PyFloat Py.f_0_5) 2 init = inr s' /\
    points s' = [(960, 540)] /\ labels s' = [2] /\ needs_update s' = true.
Proof.
  exists (mkPromptState "auto" [(960, 540)] [2] None 0 true).
  vm_compute. repeat split.
Qed.

(** C4.  Whatever the prompt was, after [set_mode m] the points and labels
    are empty, the box is unset, the mode is [m] and the flag is set; and
    the step is atomic for every thread that takes the lock: of all the
    states the method goes through, the lock is back at its entry level
    only in the last one, which is the result. *)
Theorem set_mode_resets_prompt (m : string) (s : PromptState) :
  let s' := exec (set_mode m) s in
  points s' = [] /\ labels s' = [] /\ box s' = None /\
  mode s' = m /\ needs_update s' = true /\ lock s' = lock s /\
  filter (fun t => (lock t <=? lock s)%nat) (trace (set_mode m) s) = [s'].
Proof.
  cbn zeta. rewrite exec_set_mode. cbn [points labels box mode needs_update lock].
  do 6 (split; [ reflexivity | ]).
  destruct s as [md pts lbls bx lk nu].
  unfold trace, set_mode, clear, with_lock, acquire, release, bind, write, ret.
  cbn -[Nat.leb].
  assert (H1 : (S lk <=? lk)%nat = false) by (apply Nat.leb_gt; lia).
  assert (H2 : (S (S lk) <=? lk)%nat = false) by (apply Nat.leb_gt; lia).
  rewrite H1, H2, Nat.leb_refl. reflexivity.
Qed.

(** C5.  After a batch of one or more mutations the first
    [consume_update_flag] returns true and every further call returns
    false; and, from any state, two calls in a row never both return
    true. *)
Theorem consume_once_per_batch (s : PromptState) (batch : list call) :
  batch <> [] ->
  let s1 := apply_calls batch s in
  eval consume_update_flag s1 = true /\
  (forall n, eval consume_update_flag (consume_times (S n) s1) = false) /\
  (forall s0,
      ~ (eval consume_update_flag s0 = true /\
         eval consume_update_flag (exec consume_update_flag s0) = true)).
Proof.
  intros Hne. cbn zeta. split; [ | split ].
  - destruct (exists_last Hne) as [front [c ->]].
    unfold apply_calls. rewrite fold_left_app. cbn [fold_left].
    rewrite eval_consume. apply do_call_sets_flag.
  - intros n. rewrite eval_consume. unfold consume_times.
    rewrite Nat.iter_succ. now rewrite exec_consume.
  - intros s0 [_ H]. rewrite eval_consume, exec_consume in H. discriminate.
Qed.

Lemma consume_once_per_batch_witness :
  [Clear; AddPoint 3 4 1] <> [] /\
  eval consume_update_flag (apply_calls [Clear; AddPoint 3 4 1] init) = true /\
  eval consume_update_flag
    (consume_times 2 (apply_calls [Clear; AddPoint 3 4 1] init)) = false.
Proof.
  assert (Hne : [Clear; AddPoint 3 4 1] <> []) by discriminate.
  split; [ exact Hne | ].
  destruct (consume_once_per_batch init [Clear; AddPoint 3 4 1] Hne)
    as [H1 [H2 _]].
  split; [ exact H1 | exact (H2 1%nat) ].
Defined.

Lemma apply_add_points (pts : list ((Z * Z) * Z)) (s : PromptState) :
  let s' := apply_calls (add_points pts) s in
  points s' = points s ++ map fst pts /\
  labels s' = labels s ++ map snd pts /\
  mode s' = mode s /\ box s' = box s /\ lock s' = lock s.
Proof.
  revert s. induction pts as [ | [[x y] label] pts IH ]; intros s; cbn zeta.
  - cbn. now rewrite !app_nil_r.
  - unfold add_points, apply_calls. cbn [map fold_left fst snd do_call].
    destruct (IH (exec (add_point x y label) s)) as (Hp & Hl & Hm & Hb & Hk).
    unfold add_points, apply_calls in Hp, Hl, Hm, Hb, Hk.
    rewrite Hp, Hl, Hm, Hb, Hk, exec_add_point. cbn.
    now rewrite <- !app_assoc.
Qed.

(** C9 (as the code has it).  The points sent between two reads of the flag
    are appended, in call order, to the points the store already holds:
    neither read removes anything.  The prompt read afterwards holds the old
    points followed by the [k] new ones, and exactly the [k] new ones when
    the store was cleared before the first read. *)
Theorem add_points_extend_snapshot (s : PromptState) (pts : list ((Z * Z) * Z)) :
  let between s0 :=
    exec consume_update_flag
      (apply_calls (add_points pts) (exec consume_update_flag s0)) in
  points (between s) = points s ++ map fst pts /\
  labels (between s) = labels s ++ map snd pts /\
  snap_points (eval snapshot (between s)) = truthy (points s ++ map fst pts) /\
  List.length (points (between s)) = (List.length (points s) + List.length pts)%nat /\
  snap_points (eval snapshot (between (exec clear s))) = truthy (map fst pts) /\
  List.length (points (between (exec clear s))) = List.length pts.
Proof.
  cbn zeta.
  assert (H : forall s0,
             points (exec consume_update_flag
                       (apply_calls (add_points pts)
                                    (exec consume_update_flag s0)))
             = points s0 ++ map fst pts /\
             labels (exec consume_update_flag
                       (apply_calls (add_points pts)
                                    (exec consume_update_flag s0)))
             = labels s0 ++ map snd pts).
  { intros s0. rewrite exec_consume. cbn [points labels].
    destruct (apply_add_points pts (exec consume_update_flag s0))
      as (Hp & Hl & _).
    rewrite Hp, Hl, exec_consume. now cbn. }
  destruct (H s) as [Hp Hl]. destruct (H (exec clear s)) as [Hpc _].
  assert (Hc : points (exec clear s) = []) by now rewrite exec_clear.
  rewrite Hc in Hpc. cbn [app] in Hpc.
  rewrite !eval_snapshot. cbn [snap_points].
  rewrite Hp, Hl, Hpc, List.length_app, List.length_map.
  repeat (split; [ reflexivity | ]). reflexivity.
Qed.

(** C9, refuted as stated: one point is stored, the flag is read, two more
    points arrive, the flag is read again; the prompt then holds three
    points, not two. *)
Lemma points_survive_consume :
  let s0 := exec consume_update_flag (apply_calls [AddPoint 10 10 1] init) in
  let new := [((20, 20), 1); ((30, 30), 0)] in
  let s1 := exec consume_update_flag (apply_calls (add_points new) s0) in
  snap_points (eval snapshot s1) = Some [(10, 10); (20, 20); (30, 30)] /\
  List.length (points s1) = 3%nat /\ List.length new = 2%nat.
Proof. vm_compute. auto. Qed.

(** C10.  If the stored points and labels are those of a list of
    [add_point] calls, position by position, then so they are after any
    operation, for the list the operation leaves: emptied by [clear] and
    [set_mode], extended by [add_point], unchanged by [set_box] and
    [consume_update_flag]; in particular the two lists keep equal length. *)
Theorem points_labels_paired (s : PromptState) (sup : list ((Z * Z) * Z)) (o : op) :
  paired s sup ->
  let s' := exec (do_op o) s in
  paired s' (supplied o sup) /\
  List.length (points s') = List.length (labels s') /\
  forall i p, nth_error (points s') i = Some p ->
    exists l, nth_error (labels s') i = Some l /\
              nth_error (supplied o sup) i = Some (p, l).
Proof.
  intros [Hp Hl]. cbn zeta.
  assert (P : paired (exec (do_op o) s) (supplied o sup)).
  { destruct o as [[ | x y label | x1 y1 x2 y2 | m] | ]; unfold paired;
      cbn [do_op do_call supplied].
    - now rewrite exec_clear.
    - rewrite exec_add_point. cbn [points labels].
      now rewrite Hp, Hl, !map_app.
    - now rewrite exec_set_box.
    - now rewrite exec_set_mode.
    - destruct s; cbn in *. now split. }
  split; [ exact P | ]. destruct P as [Pp Pl]. rewrite Pp, Pl. split.
  - now rewrite !List.length_map.
  - intros i p Hi. rewrite nth_error_map in Hi |- *.
    destruct (nth_error (supplied o sup) i) as [[q l] | ]; [ | discriminate ].
    cbn in Hi |- *. injection Hi as <-. now exists l.
Qed.

Lemma points_labels_paired_witness :
  paired init [] /\
  paired (exec (do_op (Mutation (AddPoint 3 4 1))) init) [((3, 4), 1)].
Proof.
  assert (H0 : paired init []) by (split; reflexivity).
  split; [ exact H0 | ].
  exact (proj1 (points_labels_paired init [] (Mutation (AddPoint 3 4 1)) H0)).
Defined.

(** ** Scaling a normalized coordinate

    The product of a binary64 in the unit interval with the width or the
    height is computed by [binary_round_aux]; the lemmas below bound the
    mantissa and the exponent it returns, so the product is finite and
    [int(...)] does not raise. *)

Lemma iter_pos_preserves {A} (P : A -> Prop) (f : A -> A) :
  (forall x, P x -> P (f x)) -> forall p x, P x -> P (iter_pos f p x).
Proof.
  intros Hf. induction p as [p IH | p IH | ]; intros x Hx; cbn; auto.
Qed.

Lemma shr_1_bound (B : Z) (mrs : shr_record) :
  0 <= shr_m mrs <= B -> 0 <= shr_m (shr_1 mrs) <= B.
Proof.
  destruct mrs as [m r s]. cbn [shr_m]. intros H.
  destruct m as [ | [p | p | ] | p ]; cbn; lia.
Qed.

Lemma shr_bound (B : Z) (mrs : shr_record) (e n : Z) :
  0 <= shr_m mrs <= B ->
  0 <= shr_m (fst (shr mrs e n)) <= B /\ snd (shr mrs e n) = e + Z.max 0 n.
Proof.
  intros H. destruct n as [ | p | p ]; cbn [shr fst snd].
  - split; [ exact H | lia ].
  - split; [ | lia ].
    apply (iter_pos_preserves (fun x => 0 <= shr_m x <= B)); auto.
    intros x. apply shr_1_bound.
  - split; [ exact H | lia ].
Qed.

Lemma Zdigits2_log2 (p : positive) : Zdigits2 (Zpos p) = Z.log2 (Zpos p) + 1.
Proof.
  induction p as [p IH | p IH | ]; [ | | reflexivity ];
    cbn [Zdigits2 digits2_pos] in *; rewrite Pos2Z.inj_succ, IH.
  - change (Zpos p~1) with (2 * Zpos p + 1). rewrite Z.log2_succ_double; lia.
  - change (Zpos p~0) with (2 * Zpos p). rewrite Z.log2_double; lia.
Qed.

Lemma Zdigits2_mono (a b : Z) : 0 <= a <= b -> Zdigits2 a <= Zdigits2 b.
Proof.
  intros [Ha Hab]. destruct a as [ | a | a ]; [ | | lia ].
  - destruct b; cbn; lia.
  - destruct b as [ | b | b ]; try lia.
    rewrite !Zdigits2_log2. apply Z.add_le_mono_r, Z.log2_le_mono. exact Hab.
Qed.

Lemma Zdigits2_succ (a : Z) : 0 <= a -> Zdigits2 (a + 1) <= Zdigits2 a + 1.
Proof.
  intros Ha. destruct a as [ | a | a ]; [ cbn; lia | | lia ].
  change (Zpos a + 1) with (Zpos (a + 1)). rewrite !Zdigits2_log2.
  assert (Z.log2 (Zpos (a + 1)) <= Z.log2 (2 * Zpos a)).
  { apply Z.log2_le_mono. lia. }
  rewrite Z.log2_double in H; lia.
Qed.

Lemma Zdigits2_mul (a b : positive) :
  Zdigits2 (Zpos (a * b)) <= Zdigits2 (Zpos a) + Zdigits2 (Zpos b).
Proof.
  rewrite !Zdigits2_log2, Pos2Z.inj_mul.
  pose proof (Z.log2_mul_above (Zpos a) (Zpos b)). lia.
Qed.

Lemma round_nearest_even_bound (m : Z) (l : location) :
  0 <= m -> 0 <= round_nearest_even m l <= m + 1.
Proof.
  intros H. destruct l as [ | [ | | ] ]; cbn; try lia.
  destruct (Z.even m); lia.
Qed.

Lemma binary_round_aux_finite (sx : bool) (mx : positive) (ex : Z) :
  Zdigits2 (Zpos mx) <= 110 -> ex + Zdigits2 (Zpos mx) <= 900 ->
  binary_round_aux 53 1024 sx (Zpos mx) ex loc_Exact = S754_zero sx \/
  exists m e, binary_round_aux 53 1024 sx (Zpos mx) ex loc_Exact = S754_finite sx m e.
Proof.
  intros Hd He. unfold binary_round_aux, shr_fexp.
  set (d := Zdigits2 (Zpos mx)) in *.
  pose proof (shr_bound (Zpos mx) (shr_record_of_loc (Zpos mx) loc_Exact) ex
                (fexp 53 1024 (d + ex) - ex)) as H1.
  destruct (shr _ ex _) as [mrs' e']. cbn [fst snd] in H1.
  destruct H1 as [Hm' He']; [ cbn [shr_record_of_loc shr_m]; lia | ].
  set (m1 := round_nearest_even (shr_m mrs') (loc_of_shr_record mrs')).
  pose proof (round_nearest_even_bound (shr_m mrs') (loc_of_shr_record mrs')
                (proj1 Hm')) as Hm1. fold m1 in Hm1.
  pose proof (shr_bound m1 (shr_record_of_loc m1 loc_Exact) e'
                (fexp 53 1024 (Zdigits2 m1 + e') - e')) as H2.
  destruct (shr _ e' _) as [mrs'' e'']. cbn [fst snd] in H2.
  destruct H2 as [Hm'' He''];
    [ cbn [shr_record_of_loc shr_m]; split; [ apply Hm1 | apply Z.le_refl ] | ].
  assert (Hd1 : Zdigits2 m1 <= d + 1).
  { transitivity (Zdigits2 (Zpos mx + 1)).
    - apply Zdigits2_mono. destruct Hm1, Hm'. split; [ assumption | ].
      etransitivity; [ eassumption | ]. now apply Z.add_le_mono_r.
    - apply Zdigits2_succ. apply Pos2Z.is_nonneg. }
  assert (Hd0 : 0 < d) by (unfold d; cbn; apply Pos2Z.is_pos).
  clearbody m1 d.
  destruct (shr_m mrs'') as [ | m'' | m'' ] eqn:E; [ now left | | lia ].
  right. exists m'', e''.
  assert (Hle : e'' <= 1024 - 53).
  { unfold fexp, emin in *. lia. }
  apply Z.leb_le in Hle. now rewrite Hle.
Qed.

Lemma shr_1_spec (mrs : shr_record) :
  0 <= shr_m mrs ->
  shr_m (shr_1 mrs) = shr_m mrs / 2 /\
  (no_remainder mrs -> shr_m mrs mod 2 = 0 -> no_remainder (shr_1 mrs)).
Proof.
  destruct mrs as [m r s]. unfold no_remainder. cbn [shr_m shr_r shr_s]. intros Hm.
  destruct m as [ | [p | p | ] | p ]; try lia; cbn [shr_1 shr_m shr_r shr_s].
  - split; [ reflexivity | ]. intros [-> ->] _. now split.
  - split.
    + rewrite (Pos2Z.inj_xI p). apply Z.div_unique with 1; lia.
    + intros _ H. rewrite (Pos2Z.inj_xI p) in H.
      rewrite Z.add_comm, Z.mul_comm, Z.mod_add in H by lia. discriminate.
  - split.
    + rewrite (Pos2Z.inj_xO p). apply Z.div_unique with 0; lia.
    + intros [-> ->] _. now split.
  - split; [ reflexivity | ]. intros _ H. discriminate.
Qed.

Lemma mod_mul_zero (m a b : Z) :
  0 < a -> 0 < b -> m mod (a * b) = 0 -> m mod a = 0 /\ (m / a) mod b = 0.
Proof.
  intros Ha Hb H. rewrite Z.rem_mul_r in H by lia.
  pose proof (Z.mod_pos_bound m a Ha).
  pose proof (Z.mod_pos_bound (m / a) b Hb). nia.
Qed.

Lemma iter_shr_1_spec (p : positive) :
  forall mrs,
    0 <= shr_m mrs ->
    shr_m (iter_pos shr_1 p mrs) = shr_m mrs / 2 ^ Zpos p /\
    (no_remainder mrs -> shr_m mrs mod 2 ^ Zpos p = 0 -> no_remainder (iter_pos shr_1 p mrs)).
Proof.
  assert (Hnn : forall q mrs, 0 <= shr_m mrs -> 0 <= shr_m (iter_pos shr_1 q mrs)).
  { intros q mrs H.
    apply (iter_pos_preserves (fun x => 0 <= shr_m x)); [ | exact H ].
    intros x Hx. now apply (shr_1_bound (shr_m x)). }
  assert (Hnn1 : forall mrs, 0 <= shr_m mrs -> 0 <= shr_m (shr_1 mrs)).
  { intros mrs H. now apply (shr_1_bound (shr_m mrs)). }
  assert (Hpow : forall q, 0 < 2 ^ Zpos q) by (intros; apply Z.pow_pos_nonneg; lia).
  induction p as [p IH | p IH | ]; intros mrs Hm; cbn [iter_pos].
  - destruct (shr_1_spec mrs Hm) as [E1 X1].
    destruct (IH (shr_1 mrs) (Hnn1 _ Hm)) as [E2 X2].
    destruct (IH (iter_pos shr_1 p (shr_1 mrs)) (Hnn _ _ (Hnn1 _ Hm))) as [E3 X3].
    assert (Ep : 2 ^ Zpos p~1 = 2 * (2 ^ Zpos p * 2 ^ Zpos p)).
    { rewrite (Pos2Z.inj_xI p).
      replace (2 * Zpos p + 1) with (1 + (Zpos p + Zpos p)) by lia.
      rewrite !Z.pow_add_r by lia. reflexivity. }
    rewrite Ep. pose proof (Hpow p) as HX.
    set (X := 2 ^ Zpos p) in *. clearbody X. split.
    + rewrite E3, E2, E1, !Z.div_div by lia. reflexivity.
    + intros Hx Hz.
      destruct (mod_mul_zero _ 2 (X * X) ltac:(lia) ltac:(nia) Hz) as [Z1 Z2].
      destruct (mod_mul_zero _ _ _ HX HX Z2) as [Z3 Z4].
      apply X3.
      * apply X2; [ now apply X1 | now rewrite E1 ].
      * now rewrite E2, E1.
  - destruct (IH mrs Hm) as [E2 X2].
    destruct (IH (iter_pos shr_1 p mrs) (Hnn _ _ Hm)) as [E3 X3].
    assert (Ep : 2 ^ Zpos p~0 = 2 ^ Zpos p * 2 ^ Zpos p).
    { rewrite (Pos2Z.inj_xO p).
      replace (2 * Zpos p) with (Zpos p + Zpos p) by lia.
      rewrite Z.pow_add_r by lia. reflexivity. }
    rewrite Ep. pose proof (Hpow p) as HX.
    set (X := 2 ^ Zpos p) in *. clearbody X. split.
    + rewrite E3, E2, !Z.div_div by lia. reflexivity.
    + intros Hx Hz.
      destruct (mod_mul_zero _ _ _ HX HX Hz) as [Z3 Z4].
      apply X3; [ now apply X2 | now rewrite E2 ].
  - change (2 ^ 1) with 2. now apply shr_1_spec.
Qed.

Lemma shr_spec (mrs : shr_record) (e n : Z) :
  0 <= shr_m mrs ->
  snd (shr mrs e n) = e + Z.max 0 n /\
  shr_m (fst (shr mrs e n)) = shr_m mrs / 2 ^ Z.max 0 n /\
  (no_remainder mrs -> shr_m mrs mod 2 ^ Z.max 0 n = 0 -> no_remainder (fst (shr mrs e n))).
Proof.
  intros Hm. destruct n as [ | p | p ].
  - cbn [shr fst snd]. change (2 ^ Z.max 0 0) with 1. rewrite Z.div_1_r.
    split; [ lia | ]. split; [ reflexivity | ]. intros H _. exact H.
  - cbn [shr fst snd]. change (Z.max 0 (Zpos p)) with (Zpos p).
    destruct (iter_shr_1_spec p mrs Hm) as [E X].
    split; [ reflexivity | ]. split; [ exact E | exact X ].
  - cbn [shr fst snd]. change (2 ^ Z.max 0 (Zneg p)) with 1. rewrite Z.div_1_r.
    split; [ lia | ]. split; [ reflexivity | ]. intros H _. exact H.
Qed.

Lemma round_nearest_even_exact (mrs : shr_record) :
  no_remainder mrs -> round_nearest_even (shr_m mrs) (loc_of_shr_record mrs) = shr_m mrs.
Proof. destruct mrs as [m r s]. intros [H1 H2]. cbn in *. now subst. Qed.

Lemma Zdigits2_lt_pow2 (a b : Z) : 0 <= a -> 0 <= b -> a < 2 ^ b -> Zdigits2 a <= b.
Proof.
  intros Ha Hb H. destruct a as [ | a | a ]; [ exact Hb | | lia ].
  rewrite Zdigits2_log2. apply Z.log2_lt_pow2 in H; lia.
Qed.

Lemma binary_round_aux_le (K : Z) (M : positive) (E : Z) (sx : bool)
      (m2 : positive) (e2 : Z) :
  0 < K < 2 ^ 11 -> E <= -42 -> Zpos M <= K * 2 ^ (- E) ->
  binary_round_aux 53 1024 sx (Zpos M) E loc_Exact = S754_finite sx m2 e2 ->
  e2 < 0 /\ Zpos m2 / 2 ^ (- e2) <= K.
Proof.
  intros HK HE HM. unfold binary_round_aux, shr_fexp.
  set (d := Zdigits2 (Zpos M)).
  assert (Hd : 0 < d <= 11 - E).
  { split; [ unfold d; cbn; lia | ].
    apply Zdigits2_lt_pow2; try lia.
    replace (11 - E) with (11 + - E) by lia. rewrite Z.pow_add_r by lia.
    assert (0 < 2 ^ (- E)) by (apply Z.pow_pos_nonneg; lia). nia. }
  clearbody d.
  set (n1 := fexp 53 1024 (d + E) - E).
  pose proof (shr_spec (shr_record_of_loc (Zpos M) loc_Exact) E n1) as S1.
  destruct (shr _ E n1) as [mrs1 e1]. cbn [fst snd shr_record_of_loc shr_m] in S1.
  destruct S1 as (He1 & Hm1 & Hx1); [ lia | ].
  assert (Hn1 : e1 <= -42 /\ E <= e1 /\ e1 = E + Z.max 0 n1).
  { unfold n1, fexp, emin in *. lia. }
  destruct Hn1 as (He1a & He1b & He1c).
  set (N1 := Z.max 0 n1) in *.
  assert (HN1 : 0 <= N1) by (unfold N1; lia).
  assert (PE : 2 ^ (- E) = 2 ^ (- e1) * 2 ^ N1).
  { rewrite <- Z.pow_add_r by lia. f_equal. lia. }
  assert (P1 : 0 < 2 ^ (- e1)) by (apply Z.pow_pos_nonneg; lia).
  assert (P2 : 0 < 2 ^ N1) by (apply Z.pow_pos_nonneg; lia).
  assert (Q11 : K * 2 ^ (- e1) < 2 ^ (11 - e1)).
  { replace (11 - e1) with (11 + - e1) by lia. rewrite Z.pow_add_r by lia. nia. }
  clearbody N1. clear He1 n1.
  set (Q := K * 2 ^ (- e1)) in *.
  assert (HMQ : Zpos M <= 2 ^ N1 * Q) by (unfold Q; rewrite PE in HM; nia).
  set (m1 := round_nearest_even (shr_m mrs1) (loc_of_shr_record mrs1)).
  assert (Hm1Q : 0 <= m1 <= Q).
  { assert (Hnn : 0 <= shr_m mrs1) by (rewrite Hm1; apply Z.div_pos; lia).
    pose proof (round_nearest_even_bound (shr_m mrs1) (loc_of_shr_record mrs1) Hnn)
      as Hb. fold m1 in Hb.
    assert (Hle : shr_m mrs1 <= Q).
    { rewrite Hm1. apply Z.div_le_upper_bound; assumption. }
    destruct (Z.eq_dec (shr_m mrs1) Q) as [Heq | Hne]; [ | lia ].
    assert (Hex : no_remainder mrs1).
    { apply Hx1; [ now split | ].
      assert (Hge : 2 ^ N1 * Q <= Zpos M).
      { rewrite <- Heq, Hm1. apply Z.mul_div_le. exact P2. }
      assert (HMe : Zpos M = Q * 2 ^ N1) by lia.
      rewrite HMe. apply Z.mod_mul. lia. }
    unfold m1. rewrite (round_nearest_even_exact mrs1 Hex). lia. }
  clearbody m1.
  set (n2 := fexp 53 1024 (Zdigits2 m1 + e1) - e1).
  pose proof (shr_spec (shr_record_of_loc m1 loc_Exact) e1 n2) as S2.
  destruct (shr _ e1 n2) as [mrs2 e2']. cbn [fst snd shr_record_of_loc shr_m] in S2.
  destruct S2 as (He2 & Hm2 & _); [ lia | ].
  assert (Hd1 : 0 <= Zdigits2 m1 <= 11 - e1).
  { split.
    - destruct m1; cbn; lia.
    - apply Zdigits2_lt_pow2; lia. }
  assert (Hn2 : e2' <= -42 /\ e1 <= e2' /\ e2' = e1 + Z.max 0 n2).
  { unfold n2, fexp, emin in *. lia. }
  destruct Hn2 as (He2a & He2b & He2c).
  set (N2 := Z.max 0 n2) in *.
  assert (HN2 : 0 <= N2) by (unfold N2; lia).
  assert (Pe : 2 ^ (- e1) = 2 ^ (- e2') * 2 ^ N2).
  { rewrite <- Z.pow_add_r by lia. f_equal. lia. }
  assert (P3 : 0 < 2 ^ (- e2')) by (apply Z.pow_pos_nonneg; lia).
  assert (P4 : 0 < 2 ^ N2) by (apply Z.pow_pos_nonneg; lia).
  clearbody N2. clear He2 n2.
  destruct (shr_m mrs2) as [ | m | m ] eqn:Em; try discriminate.
  destruct (e2' <=? 1024 - 53); try discriminate.
  intros [= <- <-]. split; [ lia | ].
  apply Z.div_le_upper_bound; [ exact P3 | ].
  rewrite Hm2. apply Z.div_le_upper_bound; [ exact P4 | ].
  unfold Q in Hm1Q. rewrite Pe in Hm1Q. nia.
Qed.

Lemma trunc_finite_nonneg (m : positive) (e : Z) : 0 <= Py.trunc_finite false m e.
Proof.
  unfold Py.trunc_finite. destruct e as [ | p | p ].
  - apply Z.shiftl_nonneg. lia.
  - apply Z.shiftl_nonneg. lia.
  - apply Z.shiftr_nonneg. lia.
Qed.

Lemma in_unit_float (f : spec_float) :
  Py.in_unit (Py.PyFloat f) = true ->
  (exists s, f = S754_zero s) \/
  (exists m e,
      f = S754_finite false m e /\ e <= -52 /\
      Zdigits2 (Zpos m) <= 53 /\ Zpos m <= 2 ^ (- e)).
Proof.
  unfold Py.in_unit. intros H.
  apply andb_prop in H. destruct H as [H H1].
  apply andb_prop in H. destruct H as [Hv H0].
  destruct f as [s | s | | s m e].
  - left. now exists s.
  - destruct s; discriminate.
  - discriminate.
  - right. exists m, e. destruct s; [ discriminate | ].
    split; [ reflexivity | ].
    assert (Hd : Zdigits2 (Zpos m) <= 53).
    { cbn in Hv. apply andb_prop in Hv. destruct Hv as [Hc _].
      unfold canonical_mantissa, fexp, emin in Hc. apply Z.eqb_eq in Hc.
      cbn [Zdigits2]. unfold Py.prec, Py.emax in *. lia. }
    assert (Hm53 : Zpos m < 2 ^ 53).
    { apply Z.log2_lt_pow2; [ lia | ]. rewrite Zdigits2_log2 in Hd. lia. }
    unfold SFleb, SFcompare, Py.f_1_0 in H1.
    destruct (Z.compare_spec e (-52)) as [-> | Hlt | Hgt];
      [ | | discriminate ].
    + split; [ lia | ]. split; [ exact Hd | ].
      change (2 ^ (- -52)) with 4503599627370496.
      unfold Z.le. cbn [Z.compare]. unfold Pos.compare.
      destruct (Pos.compare_cont Eq m 4503599627370496); discriminate.
    + split; [ lia | ]. split; [ exact Hd | ].
      assert (2 ^ 53 <= 2 ^ (- e)) by (apply Z.pow_le_mono_r; lia). lia.
Qed.

(** [int(x * k)] for a coordinate in the unit interval and [k] the width or
    the height: no exception, and a result between 0 and [k]. *)
Lemma int_mul_in_unit (x : Py.num) (k : Z) :
  k = WIDTH \/ k = HEIGHT -> Py.in_unit x = true ->
  exists n, Py.int (Py.mul_int x k) = inr n /\ 0 <= n <= k.
Proof.
  intros Hk Hx. destruct x as [n | f].
  - exists (n * k). split; [ reflexivity | ].
    cbn in Hx. apply andb_prop in Hx. destruct Hx as [H0 H1].
    apply Z.leb_le in H0, H1. destruct Hk; subst k; unfold WIDTH, HEIGHT; lia.
  - destruct (in_unit_float f Hx) as [[s ->] | (m & e & -> & He & Hd & Hm)].
    + exists 0. split; [ | destruct Hk; subst k; unfold WIDTH, HEIGHT; lia ].
      destruct Hk; subst k; reflexivity.
    + assert (Hk' : exists mk, Py.float_of_int k = S754_finite false mk (-42)
                               /\ Zdigits2 (Zpos mk) = 53
                               /\ Zpos mk = k * 2 ^ 42 /\ 0 < k < 2 ^ 11).
      { destruct Hk; subst k;
          [ exists 8444249301319680%positive
          | exists 4749890231992320%positive ];
          (split; [ vm_compute; reflexivity | ]);
          (split; [ vm_compute; reflexivity | ]);
          (split; [ vm_compute; reflexivity | ]);
          split; vm_compute; reflexivity. }
      destruct Hk' as (mk & Ek & Hdk & Hmk & Hkb).
      pose proof (Zdigits2_mul m mk) as Hmul.
      unfold Py.mul_int. rewrite Ek. unfold SFmul. cbn [xorb].
      unfold Py.prec, Py.emax.
      assert (HM : Zpos (m * mk) <= k * 2 ^ (- (e + -42))).
      { rewrite Pos2Z.inj_mul, Hmk.
        replace (- (e + -42)) with (- e + 42) by lia.
        rewrite Z.pow_add_r by lia.
        assert (0 < 2 ^ 42) by (apply Z.pow_pos_nonneg; lia). nia. }
      destruct (binary_round_aux_finite false (m * mk) (e + -42))
        as [Er | (m' & e' & Er)]; try lia.
      * rewrite Er. exists 0. split; [ reflexivity | lia ].
      * destruct (binary_round_aux_le k (m * mk) (e + -42) false m' e'
                    Hkb ltac:(lia) HM Er) as [Hneg Hle].
        rewrite Er. eexists. split; [ reflexivity | ].
        split; [ apply trunc_finite_nonneg | ].
        unfold Py.trunc_finite. destruct e' as [ | p | p ]; try lia.
        rewrite Z.shiftr_div_pow2 by lia. exact Hle.
Qed.

(** C8.  For normalized coordinates, ints or floats in the unit interval,
    the [int(...)] conversions of [handle_box] do not raise, and the box
    stored is the list of the four products, x by [WIDTH] and y by [HEIGHT],
    each computed in binary64 and cut to its integer part, which lies
    between 0 and the width, respectively the height;
    the flag is set and the mode, points and labels are untouched.  In
    particular the box (0.1, 0.1, 0.5, 0.5) is stored as
    [192, 108, 960, 540], for the binary64 nearest to 0.1 as for the
    binary32 one that an OSC float carries. *)
Theorem handle_box_scales (x1 y1 x2 y2 : Py.num) (s : PromptState) :
  Py.in_unit x1 = true -> Py.in_unit y1 = true ->
  Py.in_unit x2 = true -> Py.in_unit y2 = true ->
  (exists bx1 by1 bx2 by2 s',
      Py.int (Py.mul_int x1 WIDTH) = inr bx1 /\
      Py.int (Py.mul_int y1 HEIGHT) = inr by1 /\
      Py.int (Py.mul_int x2 WIDTH) = inr bx2 /\
      Py.int (Py.mul_int y2 HEIGHT) = inr by2 /\
      0 <= bx1 <= WIDTH /\ 0 <= by1 <= HEIGHT /\
      0 <= bx2 <= WIDTH /\ 0 <= by2 <= HEIGHT /\
      handle_box x1 y1 x2 y2 s = inr s' /\
      box s' = Some [bx1; by1; bx2; by2] /\ needs_update s' = true /\
      mode s' = mode s /\ points s' = points s /\ labels s' = labels s) /\
  (forall tenth, tenth = Py.f_0_1 \/ tenth = Py.f_0_1_single ->
     exists s',
       handle_box (Py.PyFloat tenth) (Py.PyFloat tenth)
                  (Py.PyFloat Py.f_0_5) (Py.PyFloat Py.f_0_5) s = inr s' /\
       box s' = Some [192; 108; 960; 540]).
Proof.
  intros H1 H2 H3 H4. split.
  - destruct (int_mul_in_unit x1 WIDTH (or_introl eq_refl) H1) as (a & Ea & Ha).
    destruct (int_mul_in_unit y1 HEIGHT (or_intror eq_refl) H2) as (b & Eb & Hb).
    destruct (int_mul_in_unit x2 WIDTH (or_introl eq_refl) H3) as (c & Ec & Hc).
    destruct (int_mul_in_unit y2 HEIGHT (or_intror eq_refl) H4) as (d & Ed & Hd).
    exists a, b, c, d, (exec (set_box a b c d) s).
    unfold handle_box. rewrite Ea, Eb, Ec, Ed, exec_set_box.
    cbn [box needs_update mode points labels].
    do 4 (split; [ reflexivity | ]).
    do 4 (split; [ assumption | ]).
    do 5 (split; [ reflexivity | ]). reflexivity.
  - intros tenth Ht. eexists. unfold handle_box.
    assert (E : Py.int (Py.mul_int (Py.PyFloat tenth) WIDTH) = inr 192 /\
                Py.int (Py.mul_int (Py.PyFloat tenth) HEIGHT) = inr 108).
    { destruct Ht; subst tenth; split; vm_compute; reflexivity. }
    destruct E as [-> ->].
    assert (E : Py.int (Py.mul_int (Py.PyFloat Py.f_0_5) WIDTH) = inr 960 /\
                Py.int (Py.mul_int (Py.PyFloat Py.f_0_5) HEIGHT) = inr 540).
    { split; vm_compute; reflexivity. }
    destruct E as [-> ->]. split; [ reflexivity | ].
    now rewrite exec_set_box.
Qed.

Lemma handle_box_scales_witness :
  exists s',
    handle_box (Py.PyFloat Py.f_0_1) (Py.PyFloat Py.f_0_1)
               (Py.PyFloat Py.f_0_5) (Py.PyFloat Py.f_0_5) init = inr s' /\
    box s' = Some [192; 108; 960; 540].
Proof.
  assert (U1 : Py.in_unit (Py.PyFloat Py.f_0_1) = true) by reflexivity.
  assert (U5 : Py.in_unit (Py.PyFloat Py.f_0_5) = true) by reflexivity.
  exact (proj2 (handle_box_scales (Py.PyFloat Py.f_0_1) (Py.PyFloat Py.f_0_1)
                  (Py.PyFloat Py.f_0_5) (Py.PyFloat Py.f_0_5) init
                  U1 U1 U5 U5)
               Py.f_0_1 (or_introl eq_refl)).
Defined.

(** ** The coordinator loop *)

Section LoopProperties.

Context {Frame Mask Score : Type} `{Img : Imaging Frame Mask Score}.

Implicit Types (st : @LoopState Frame) (inp : @TickInput Frame Mask Score).
Implicit Types (inps : list (@TickInput Frame Mask Score)).

Lemma eval_process (p : Predictor) (frame : Frame) (ps : PromptState) :
  eval (process_frame_with_sam p frame) ps = segment p (eval snapshot ps) frame.
Proof. destruct ps; reflexivity. Qed.

Lemma exec_process (p : Predictor) (frame : Frame) (ps : PromptState) :
  exec (process_frame_with_sam p frame) ps = ps.
Proof. destruct ps; reflexivity. Qed.

Ltac tick_cases :=
  unfold tick; cbv zeta;
  match goal with
  | |- context [ if ?c then _ else _ ] =>
      let C := fresh "Hrun" in
      destruct c eqn:C;
      [ match goal with
        | |- context [ eval (process_frame_with_sam ?p ?f) ?ps ] =>
            let R := fresh "Hres" in
            destruct (eval (process_frame_with_sam p f) ps)
              as [[?e | ?viz] ?sent] eqn:R
        end
      | ]
  end; cbn [fst snd frame_used inference_ran raised mask_viz telemetry
            frame_count last_frame last_mask_viz prompt_state].

Lemma tick_frame_used st inp :
  frame_used (snd (tick st inp)) =
  match syphon inp with
  | NewFrame f => f
  | _ => reused (last_frame st) zeros
  end.
Proof. tick_cases; destruct (syphon inp); reflexivity. Qed.

Lemma tick_last_frame st inp :
  last_frame (fst (tick st inp)) =
  match syphon inp with
  | NewFrame f => Some f
  | _ => last_frame st
  end.
Proof. tick_cases; reflexivity. Qed.

Lemma tick_frame_count st inp :
  frame_count (fst (tick st inp)) = frame_count st + 1.
Proof. tick_cases; reflexivity. Qed.

Lemma tick_inference_ran st inp :
  inference_ran (snd (tick st inp)) =
  dirty_read st inp || (frame_count st mod 30 =? 0).
Proof. unfold dirty_read. tick_cases; reflexivity. Qed.

Lemma tick_prompt_state st inp :
  prompt_state (fst (tick st inp)) =
  apply_calls (osc_between inp)
    (exec consume_update_flag
       (apply_calls (osc_before inp) (prompt_state st))).
Proof. tick_cases; try rewrite exec_process; reflexivity. Qed.

Lemma tick_last_mask_viz st inp :
  last_mask_viz (fst (tick st inp)) =
  if computed (snd (tick st inp)) then Some (mask_viz (snd (tick st inp)))
  else last_mask_viz st.
Proof. unfold computed. tick_cases; reflexivity. Qed.

Lemma tick_reuse st inp :
  inference_ran (snd (tick st inp)) = false ->
  mask_viz (snd (tick st inp)) =
    reused (last_mask_viz st) (frame_used (snd (tick st inp))) /\
  telemetry (snd (tick st inp)) = [] /\
  raised (snd (tick st inp)) = None.
Proof. tick_cases; intros H; try discriminate. now repeat split. Qed.

Lemma tick_outcome st inp :
  inference_ran (snd (tick st inp)) = true ->
  let out := snd (tick st inp) in
  let res := segment (predictor inp) (prompt_read st inp) (frame_used out) in
  telemetry out = snd res /\
  match fst res with
  | inr viz => raised out = None /\ mask_viz out = viz
  | inl e => raised out = Some e /\ mask_viz out = frame_used out
  end.
Proof.
  unfold prompt_read.
  tick_cases; intros H; try discriminate; cbv zeta;
    rewrite eval_process in Hres; rewrite Hres; cbn; now repeat split.
Qed.

Lemma segment_engine_raises (p : Predictor) (snap : Snapshot) (frame : Frame) :
  engine_raises p snap frame ->
  exists e, segment p snap frame = (inl e, []).
Proof.
  unfold segment.
  intros [[e He] | [(Hs & pts & e & Hm & Hp & He)
                   | (Hs & b & e & Hm & Hb & He)]].
  - rewrite He. now exists e.
  - rewrite Hs, Hm, Hp, He. cbn. now exists e.
  - rewrite Hs, Hm, Hb, He. cbn. now exists e.
Qed.

(** *** Runs *)

Lemma run_cons st inp inps :
  run st (inp :: inps) =
  (fst (run (fst (tick st inp)) inps),
   snd (tick st inp) :: snd (run (fst (tick st inp)) inps)).
Proof.
  cbn [run]. destruct (tick st inp) as [st1 out]. cbn [fst snd].
  destruct (run st1 inps) as [st2 outs]. reflexivity.
Qed.

Lemma run_app st l1 l2 :
  run st (l1 ++ l2) =
  (fst (run (fst (run st l1)) l2),
   snd (run st l1) ++ snd (run (fst (run st l1)) l2)).
Proof.
  revert st. induction l1 as [ | a l1 IH ]; intros st.
  - cbn. now destruct (run st l2).
  - rewrite <- app_comm_cons, !run_cons, IH. reflexivity.
Qed.

Lemma outputs_length inps : List.length (outputs inps) = List.length inps.
Proof.
  unfold outputs. generalize (@start Frame).
  induction inps as [ | a l IH ]; intros st; [ reflexivity | ].
  rewrite run_cons. cbn. now rewrite IH.
Qed.

(** The output of the iteration that follows [before]. *)
Lemma outputs_split before inp after :
  nth_error (outputs (before ++ inp :: after)) (List.length before) =
  Some (snd (tick (fst (run start before)) inp)).
Proof.
  unfold outputs. rewrite run_app, run_cons. cbn [snd].
  fold (outputs before).
  rewrite nth_error_app2; rewrite (outputs_length before); [ | lia ].
  now rewrite Nat.sub_diag.
Qed.

Lemma outputs_snoc before inp :
  outputs (before ++ [inp]) =
  outputs before ++ [snd (tick (fst (run start before)) inp)].
Proof. unfold outputs. now rewrite run_app, run_cons. Qed.

Lemma state_snoc before inp :
  fst (run start (before ++ [inp])) = fst (tick (fst (run start before)) inp).
Proof. now rewrite run_app, run_cons. Qed.

(** *** What the loop state holds after a run from [start] *)

Lemma frame_count_run inps :
  frame_count (fst (run start inps)) = Z.of_nat (List.length inps).
Proof.
  induction inps as [ | a l IH ] using rev_ind; [ reflexivity | ].
  rewrite state_snoc, tick_frame_count, IH, List.length_app. cbn. lia.
Qed.

Lemma last_frame_run inps :
  last_frame (fst (run start inps)) = last_real inps.
Proof.
  induction inps as [ | a l IH ] using rev_ind; [ reflexivity | ].
  rewrite state_snoc, tick_last_frame, IH.
  unfold last_real. rewrite fold_left_app. reflexivity.
Qed.

Lemma last_mask_viz_run inps :
  last_mask_viz (fst (run start inps)) = last_computed (outputs inps).
Proof.
  induction inps as [ | a l IH ] using rev_ind; [ reflexivity | ].
  rewrite state_snoc, tick_last_mask_viz, IH, outputs_snoc.
  unfold last_computed. rewrite fold_left_app. reflexivity.
Qed.

Lemma flag_clear_run inps :
  Forall no_edits inps ->
  needs_update (prompt_state (fst (run start inps))) = false.
Proof.
  induction inps as [ | a l IH ] using rev_ind; intros H; [ reflexivity | ].
  apply Forall_app in H. destruct H as [Hl Ha].
  apply Forall_inv in Ha. destruct Ha as [_ Hb].
  rewrite state_snoc, tick_prompt_state, Hb. cbn [apply_calls fold_left].
  now rewrite exec_consume.
Qed.

Lemma last_real_none inps :
  Forall (fun inp => delivered (syphon inp) = false) inps ->
  forall acc,
    fold_left
      (fun acc inp =>
         match syphon inp with
         | NewFrame f => Some f
         | _ => acc
         end) inps acc = acc.
Proof.
  induction 1 as [ | a l Ha _ IH ]; intros acc; [ reflexivity | ].
  cbn [fold_left]. rewrite IH. destruct (syphon a); try reflexivity.
  discriminate.
Qed.

Lemma idle_run_keeps_cache (later : list (@TickInput Frame Mask Score)) :
  forall st,
    Forall (fun o => inference_ran o = false) (snd (run st later)) ->
    Forall (fun o => mask_viz o = reused (last_mask_viz st) (frame_used o))
           (snd (run st later)).
Proof.
  induction later as [ | a l IH ]; intros st H; [ constructor | ].
  rewrite run_cons in H |- *. cbn [snd] in H |- *.
  pose proof (Forall_inv H) as Ha. apply Forall_inv_tail in H.
  constructor.
  - apply tick_reuse, Ha.
  - assert (E : last_mask_viz (fst (tick st a)) = last_mask_viz st).
    { rewrite tick_last_mask_viz. unfold computed. now rewrite Ha. }
    rewrite <- E. apply IH, H.
Qed.

(** C1 (as the code has it).  When inference is triggered and the
    predictor call raises, the exception is caught: the iteration ends
    normally with the counter advanced, the frame handed to the output is
    the current frame itself, the cached overlay is left as it was, and
    nothing at all is sent on the OSC client; no mask count goes out. *)
Theorem engine_failure_passes_through st inp :
  inference_ran (snd (tick st inp)) = true ->
  engine_raises (predictor inp) (prompt_read st inp)
                (frame_used (snd (tick st inp))) ->
  (exists e, raised (snd (tick st inp)) = Some e) /\
  mask_viz (snd (tick st inp)) = frame_used (snd (tick st inp)) /\
  telemetry (snd (tick st inp)) = [] /\
  last_mask_viz (fst (tick st inp)) = last_mask_viz st /\
  frame_count (fst (tick st inp)) = frame_count st + 1.
Proof.
  intros Hran Hraise.
  destruct (segment_engine_raises _ _ _ Hraise) as [e He].
  destruct (tick_outcome st inp Hran) as [Ht Hr]. cbv zeta in Ht, Hr.
  rewrite He in Ht, Hr. cbn [fst snd] in Ht, Hr. destruct Hr as [Hr Hv].
  split; [ now exists e | ]. split; [ exact Hv | ]. split; [ exact Ht | ].
  split; [ | apply tick_frame_count ].
  rewrite tick_last_mask_viz. unfold computed. rewrite Hr.
  now rewrite andb_false_r.
Qed.

(** C2 (as the code has it).  When inference runs and raises, the cached
    overlay is not replaced: it stays what it was before the iteration.
    Every following iteration that does not trigger inference hands out
    that older overlay, or its own current frame when nothing was cached
    yet; the frame passed through by the failed iteration is not kept. *)
Theorem failure_keeps_cache st inp (later : list (@TickInput Frame Mask Score)) :
  (exists e, raised (snd (tick st inp)) = Some e) ->
  Forall (fun o => inference_ran o = false)
         (snd (run (fst (tick st inp)) later)) ->
  last_mask_viz (fst (tick st inp)) = last_mask_viz st /\
  Forall (fun o => mask_viz o = reused (last_mask_viz st) (frame_used o))
         (snd (run (fst (tick st inp)) later)).
Proof.
  intros [e He] Hidle.
  assert (E : last_mask_viz (fst (tick st inp)) = last_mask_viz st).
  { rewrite tick_last_mask_viz. unfold computed. rewrite He.
    now rewrite andb_false_r. }
  split; [ exact E | ]. rewrite <- E. now apply idle_run_keeps_cache.
Qed.

(** C6 (as the code has it).  In the iteration that follows [before], whose
    counter is the length of [before]: inference runs exactly when
    [consume_update_flag] returned true or the counter is a multiple of 30;
    if no handler call was made up to and including this iteration, it runs
    exactly when the counter is a multiple of 30; and when it does not run,
    the overlay handed out is the cached one, the overlay returned by the
    most recent call that returned, or, when no call has returned yet, the
    iteration's own current frame; nothing is sent on the OSC client. *)
Theorem trigger_policy before inp after (out : @TickOutput Frame Score) :
  nth_error (outputs (before ++ inp :: after)) (List.length before) = Some out ->
  let t := Z.of_nat (List.length before) in
  frame_count (fst (run start before)) = t /\
  (inference_ran out = true <->
   dirty_read (fst (run start before)) inp = true \/ t mod 30 = 0) /\
  (Forall no_edits before -> no_edits inp ->
   (inference_ran out = true <-> t mod 30 = 0)) /\
  (inference_ran out = false ->
   mask_viz out = reused (last_computed (outputs before)) (frame_used out) /\
   last_mask_viz (fst (run start before)) = last_computed (outputs before) /\
   telemetry out = []).
Proof.
  rewrite outputs_split. intros [= <-]. cbv zeta.
  pose proof (frame_count_run before) as Hc.
  pose proof (tick_inference_ran (fst (run start before)) inp) as Hr.
  rewrite Hc in Hr.
  split; [ exact Hc | ]. split; [ | split ].
  - rewrite Hr, orb_true_iff, Z.eqb_eq. reflexivity.
  - intros Hb [Hi _]. rewrite Hr. unfold dirty_read.
    rewrite Hi. cbn [apply_calls fold_left].
    rewrite eval_consume, (flag_clear_run before Hb). cbn [orb].
    apply Z.eqb_eq.
  - intros Hidle.
    destruct (tick_reuse _ _ Hidle) as (Hv & Ht & _).
    rewrite last_mask_viz_run in Hv. rewrite last_mask_viz_run.
    now repeat split.
Qed.

(** C7 (as the code has it).  In an iteration where the Syphon read leaves
    no frame, the frame the iteration works on is the one delivered last, if
    a frame was delivered in some earlier iteration, and the black
    placeholder [zeros] if none ever was.  That frame is what inference is
    run on, and what is handed out when inference raises.  When inference
    does not run, what is handed out is the cached overlay, whichever frame
    it was computed from, and the frame itself only while nothing is cached. *)
Theorem gap_reuses_last_frame before inp after (out : @TickOutput Frame Score) :
  nth_error (outputs (before ++ inp :: after)) (List.length before) = Some out ->
  delivered (syphon inp) = false ->
  (forall l1 inp' l2 f,
      before = l1 ++ inp' :: l2 ->
      syphon inp' = NewFrame f ->
      Forall (fun x => delivered (syphon x) = false) l2 ->
      frame_used out = f) /\
  (Forall (fun x => delivered (syphon x) = false) before ->
   frame_used out = zeros) /\
  (inference_ran out = true ->
   match fst (segment (predictor inp)
                      (prompt_read (fst (run start before)) inp)
                      (frame_used out)) with
   | inr viz => mask_viz out = viz
   | inl _ => mask_viz out = frame_used out
   end) /\
  (inference_ran out = false ->
   mask_viz out = reused (last_computed (outputs before)) (frame_used out)).
Proof.
  rewrite outputs_split. intros [= <-] Hgap.
  split; [ | split; [ | split ] ].
  - intros l1 inp' l2 f -> Hf Hl2.
    rewrite tick_frame_used, last_frame_run.
    unfold last_real. rewrite fold_left_app. cbn [fold_left].
    rewrite Hf, (last_real_none l2 Hl2).
    destruct (syphon inp); try reflexivity. discriminate.
  - intros Hnone. rewrite tick_frame_used, last_frame_run.
    unfold last_real. rewrite (last_real_none before Hnone).
    destruct (syphon inp); try reflexivity. discriminate.
  - intros Hran.
    destruct (tick_outcome _ _ Hran) as [_ Ho]. cbv zeta in Ho.
    destruct (fst (segment _ _ _)); destruct Ho as [_ Hv]; exact Hv.
  - intros Hidle.
    destruct (tick_reuse _ _ Hidle) as (Hv & _).
    now rewrite last_mask_viz_run in Hv.
Qed.

End LoopProperties.

(** ** Concrete runs *)

Module Runs.

Import Demo.

(** C1, refuted as stated: the predictor raises in a triggered iteration;
    the current frame is passed through, but no mask count of 0 is sent:
    nothing is sent at all. *)
Lemma failure_sends_no_count :
  let out := snd (tick after_first failing) in
  inference_ran out = true /\
  raised out = Some Py.RuntimeError /\
  mask_viz out = Camera 2 /\
  telemetry out = [] /\
  ~ In ("/sam/masks/count", OscInt 0) (telemetry out).
Proof. vm_compute. repeat split. intros []. Qed.

Lemma engine_failure_passes_through_witness :
  mask_viz (snd (tick after_first failing)) = Camera 2 /\
  telemetry (snd (tick after_first failing)) = [].
Proof.
  assert (Hran : inference_ran (snd (tick after_first failing)) = true)
    by reflexivity.
  assert (Hraise : engine_raises (predictor failing)
                     (prompt_read after_first failing)
                     (frame_used (snd (tick after_first failing)))).
  { left. exists Py.RuntimeError. reflexivity. }
  destruct (engine_failure_passes_through after_first failing Hran Hraise)
    as (_ & Hv & Ht & _).
  split; [ exact Hv | exact Ht ].
Defined.

(** C2, refuted as stated: iteration 1 fails and passes the second camera
    frame through; iteration 2, which reuses the cache, hands out the
    overlay computed in iteration 0, not that frame. *)
Lemma failed_frame_not_cached :
  exists o0 o1 o2,
    outputs [first; failing; idle] = [o0; o1; o2] /\
    raised o1 = Some Py.RuntimeError /\ mask_viz o1 = Camera 2 /\
    inference_ran o2 = false /\ mask_viz o2 = overlay0 /\
    mask_viz o2 <> mask_viz o1.
Proof.
  do 3 eexists. split; [ vm_compute; reflexivity | ].
  cbn. repeat split. discriminate.
Qed.

Lemma failure_keeps_cache_witness :
  last_mask_viz (fst (tick after_first failing)) = last_mask_viz after_first /\
  Forall (fun o => mask_viz o = reused (last_mask_viz after_first) (frame_used o))
         (snd (run (fst (tick after_first failing)) [idle; idle])).
Proof.
  apply failure_keeps_cache.
  - exists Py.RuntimeError. vm_compute. reflexivity.
  - vm_compute. repeat constructor.
Defined.

Lemma trigger_policy_witness :
  let out := snd (tick (fst (run start [first; idle])) idle) in
  let t := Z.of_nat (List.length [first; idle]) in
  frame_count (fst (run start [first; idle])) = t /\
  (inference_ran out = true <->
   dirty_read (fst (run start [first; idle])) idle = true \/ t mod 30 = 0) /\
  (Forall no_edits [first; idle] -> no_edits idle ->
   (inference_ran out = true <-> t mod 30 = 0)) /\
  (inference_ran out = false ->
   mask_viz out =
     reused (last_computed (outputs [first; idle])) (frame_used out) /\
   last_mask_viz (fst (run start [first; idle])) =
     last_computed (outputs [first; idle]) /\
   telemetry out = []).
Proof.
  apply (trigger_policy [first; idle] idle [idle]).
  vm_compute. reflexivity.
Defined.

(** C6, refuted as stated: the first inference raises, so nothing is
    cached; the two iterations that follow do not run inference and hand
    out their own camera frames, which differ from each other and are no
    overlay computed before. *)
Lemma empty_cache_publishes_frame :
  let inps := [quiet (NewFrame (Camera 1)) broken;
               quiet (NewFrame (Camera 5)) working;
               quiet (NewFrame (Camera 6)) working] in
  Forall no_edits inps /\
  map (fun o => (inference_ran o, raised o, mask_viz o)) (outputs inps) =
    [(true, Some Py.RuntimeError, Camera 1);
     (false, None, Camera 5);
     (false, None, Camera 6)] /\
  last_computed (outputs inps) = None.
Proof.
  cbv zeta. split; [ repeat constructor | ].
  split; vm_compute; reflexivity.
Qed.

Lemma gap_reuses_last_frame_witness :
  let out := snd (tick (fst (run start [first; failing])) idle) in
  (forall l1 inp' l2 f,
      [first; failing] = l1 ++ inp' :: l2 ->
      syphon inp' = NewFrame f ->
      Forall (fun x => delivered (syphon x) = false) l2 ->
      frame_used out = f) /\
  (Forall (fun x => delivered (syphon x) = false) [first; failing] ->
   frame_used out = zeros) /\
  (inference_ran out = true ->
   match fst (segment (predictor idle)
                      (prompt_read (fst (run start [first; failing])) idle)
                      (frame_used out)) with
   | inr viz => mask_viz out = viz
   | inl _ => mask_viz out = frame_used out
   end) /\
  (inference_ran out = false ->
   mask_viz out =
     reused (last_computed (outputs [first; failing])) (frame_used out)).
Proof.
  apply (gap_reuses_last_frame [first; failing] idle []).
  - vm_compute. reflexivity.
  - reflexivity.
Defined.

(** C7, refuted as stated: iteration 0 gets no frame and caches the black
    placeholder as its overlay; iteration 1 receives a camera frame;
    iteration 2 gets no frame, works on that camera frame, and, as it does
    not run inference, hands out the cached placeholder. *)
Lemma gap_publishes_placeholder :
  map (fun o => (frame_used o, inference_ran o, mask_viz o))
      (outputs [quiet NoFrame working;
                quiet (NewFrame (Camera 3)) working;
                quiet NoFrame working]) =
    [(Black, true, Black); (Camera 3, false, Black); (Camera 3, false, Black)].
Proof. vm_compute. reflexivity. Qed.

End Runs.

(** * Further properties *)

(** ** Handlers and prompt histories *)

(** X1.  [handle_point] on normalized coordinates: no exception, and the point
    appended lies within the frame; the label is stored as sent. *)
Theorem handle_point_in_frame (x y : Py.num) (label : Z) (s : PromptState) :
  Py.in_unit x = true -> Py.in_unit y = true ->
  exists px py s',
    handle_point x y label s = inr s' /\
    0 <= px <= WIDTH /\ 0 <= py <= HEIGHT /\
    points s' = points s ++ [(px, py)] /\
    labels s' = labels s ++ [label] /\
    needs_update s' = true /\ mode s' = mode s /\ box s' = box s.
Proof.
  intros Hx Hy.
  destruct (int_mul_in_unit x WIDTH (or_introl eq_refl) Hx) as (px & Ex & Hpx).
  destruct (int_mul_in_unit y HEIGHT (or_intror eq_refl) Hy) as (py & Ey & Hpy).
  exists px, py, (exec (add_point px py label) s).
  unfold handle_point. rewrite Ex, Ey, exec_add_point.
  cbn [points labels needs_update mode box].
  split; [ reflexivity | ]. split; [ exact Hpx | ]. split; [ exact Hpy | ].
  do 4 (split; [ reflexivity | ]). reflexivity.
Qed.

Lemma handle_point_in_frame_witness :
  exists px py s',
    handle_point (Py.PyFloat Py.f_0_5) (Py.PyInt 1) 1 init = inr s' /\
    0 <= px <= WIDTH /\ 0 <= py <= HEIGHT /\
    points s' = points init ++ [(px, py)] /\
    labels s' = labels init ++ [1] /\
    needs_update s' = true /\ mode s' = mode init /\ box s' = box init.
Proof.
  apply handle_point_in_frame; reflexivity.
Defined.

Lemma int_mul_non_finite (f : spec_float) (e : Py.exn) (k : Z) :
  int_error f = Some e -> k = WIDTH \/ k = HEIGHT ->
  Py.int (Py.mul_int (Py.PyFloat f) k) = inl e.
Proof.
  intros Hf Hk.
  destruct f as [s | s | | s m x]; try discriminate;
    injection Hf as <-; destruct Hk; subst k; try destruct s; reflexivity.
Qed.

(** X2.  A coordinate that is NaN makes [handle_point] and [handle_box] raise
    [ValueError], an infinite one [OverflowError], in whichever position it
    stands after normalized ones: the conversions come before the [try], so
    the exception leaves the handler and nothing is stored. *)
Theorem handlers_reject_non_finite (f : spec_float) (e : Py.exn)
        (a b c : Py.num) (label : Z) (s : PromptState) :
  int_error f = Some e ->
  Py.in_unit a = true -> Py.in_unit b = true -> Py.in_unit c = true ->
  handle_point (Py.PyFloat f) a label s = inl e /\
  handle_point a (Py.PyFloat f) label s = inl e /\
  handle_box (Py.PyFloat f) a b c s = inl e /\
  handle_box a (Py.PyFloat f) b c s = inl e /\
  handle_box a b (Py.PyFloat f) c s = inl e /\
  handle_box a b c (Py.PyFloat f) s = inl e.
Proof.
  intros Hf Ha Hb Hc.
  pose proof (int_mul_non_finite f e WIDTH Hf (or_introl eq_refl)) as Fw.
  pose proof (int_mul_non_finite f e HEIGHT Hf (or_intror eq_refl)) as Fh.
  destruct (int_mul_in_unit a WIDTH (or_introl eq_refl) Ha) as (aw & Aw & _).
  destruct (int_mul_in_unit b HEIGHT (or_intror eq_refl) Hb) as (bh & Bh & _).
  destruct (int_mul_in_unit b WIDTH (or_introl eq_refl) Hb) as (bw & Bw & _).
  destruct (int_mul_in_unit c WIDTH (or_introl eq_refl) Hc) as (cw & Cw & _).
  destruct (int_mul_in_unit a HEIGHT (or_intror eq_refl) Ha) as (ah & Ah & _).
  unfold handle_point, handle_box.
  rewrite Fw, Fh, Aw, Bh. rewrite ?Bw, ?Cw, ?Ah, ?Fw, ?Fh, ?Bh.
  repeat split; reflexivity.
Qed.

Lemma handlers_reject_non_finite_witness :
  handle_box (Py.PyFloat Py.f_0_5) (Py.PyFloat S754_nan)
             (Py.PyFloat Py.f_0_5) (Py.PyFloat Py.f_0_5) init
  = inl Py.ValueError.
Proof.
  assert (U : Py.in_unit (Py.PyFloat Py.f_0_5) = true) by reflexivity.
  exact (proj1 (proj2 (proj2 (proj2
           (handlers_reject_non_finite S754_nan Py.ValueError
              (Py.PyFloat Py.f_0_5) (Py.PyFloat Py.f_0_5)
              (Py.PyFloat Py.f_0_5) 1 init eq_refl U U U))))).
Defined.






Lemma exec_do_call (c : call) (s : PromptState) :
  exec (do_call c) s =
  match c with
  | Clear => mkPromptState (mode s) [] [] None (lock s) true
  | AddPoint x y label =>
      mkPromptState (mode s) (points s ++ [(x, y)]) (labels s ++ [label])
                    (box s) (lock s) true
  | SetBox x1 y1 x2 y2 =>
      mkPromptState (mode s) (points s) (labels s) (Some [x1; y1; x2; y2])
                    (lock s) true
  | SetMode m => mkPromptState m [] [] None (lock s) true
  end.
Proof.
  destruct c; cbn [do_call].
  - apply exec_clear.
  - apply exec_add_point.
  - apply exec_set_box.
  - apply exec_set_mode.
Qed.

Lemma apply_calls_snoc (cs : list call) (c : call) (s : PromptState) :
  apply_calls (cs ++ [c]) s = exec (do_call c) (apply_calls cs s).
Proof. unfold apply_calls. now rewrite fold_left_app. Qed.

Lemma apply_calls_app (l1 l2 : list call) (s : PromptState) :
  apply_calls (l1 ++ l2) s = apply_calls l2 (apply_calls l1 s).
Proof. unfold apply_calls. now rewrite fold_left_app. Qed.

Lemma lock_apply_calls (cs : list call) (s : PromptState) :
  lock (apply_calls cs s) = lock s.
Proof.
  induction cs as [ | c cs IH ] using rev_ind; [ reflexivity | ].
  rewrite apply_calls_snoc, exec_do_call. destruct c; cbn; exact IH.
Qed.

(** X4.  A mode switch wipes the whole history: whatever calls came before,
    the state after [set_mode m] is the one [set_mode m] gives at once; and
    the calls that follow see nothing of what preceded the switch. *)
Theorem set_mode_absorbs_history (before after : list call) (m : string)
        (s : PromptState) :
  exec (set_mode m) (apply_calls before s) = exec (set_mode m) s /\
  apply_calls (before ++ SetMode m :: after) s
  = apply_calls (SetMode m :: after) s.
Proof.
  assert (E : exec (set_mode m) (apply_calls before s) = exec (set_mode m) s).
  { now rewrite !exec_set_mode, lock_apply_calls. }
  split; [ exact E | ].
  rewrite apply_calls_app. unfold apply_calls at 1 3. cbn [fold_left do_call].
  now rewrite E.
Qed.

(** X5.  Between two resets the prompt accumulates: a list of calls without
    [clear] or [set_mode] appends its points and labels, in call order, to
    those already stored, leaves the mode alone, and leaves as box the one
    of its last [set_box] (the old box if it has none); the flag is set as
    soon as the list is not empty. *)
Theorem reset_free_history (cs : list call) (s : PromptState) :
  forallb (fun c => negb (is_reset c)) cs = true ->
  let s' := apply_calls cs s in
  points s' = points s ++ added_points cs /\
  labels s' = labels s ++ added_labels cs /\
  box s' = last_box cs (box s) /\
  mode s' = mode s /\
  needs_update s' = match cs with [] => needs_update s | _ => true end.
Proof.
  cbn zeta. induction cs as [ | c cs IH ] using rev_ind; intros H.
  - cbn. now rewrite !app_nil_r.
  - rewrite forallb_app in H. apply andb_prop in H. destruct H as [Hcs Hc].
    destruct (IH Hcs) as (Hp & Hl & Hb & Hm & _).
    rewrite apply_calls_snoc, exec_do_call.
    unfold added_points, added_labels, last_box.
    rewrite !flat_map_app, fold_left_app. cbn [flat_map fold_left].
    fold (added_points cs) (added_labels cs) (last_box cs (box s)).
    assert (Hn : match cs ++ [c] with
                 | [] => needs_update s
                 | _ :: _ => true
                 end = true) by (destruct cs; reflexivity).
    rewrite Hn.
    destruct c as [ | x y label | x1 y1 x2 y2 | m ]; try discriminate;
      cbn [points labels box mode needs_update];
      rewrite ?app_nil_r, ?Hp, ?Hl, ?Hb, ?Hm, <- ?app_assoc;
      repeat split; reflexivity.
Qed.

Lemma reset_free_history_witness :
  let cs := [AddPoint 3 4 1; SetBox 1 2 3 4; AddPoint 5 6 0; SetBox 9 9 9 9] in
  let s' := apply_calls cs init in
  points s' = points init ++ added_points cs /\
  labels s' = labels init ++ added_labels cs /\
  box s' = last_box cs (box init) /\
  mode s' = mode init /\
  needs_update s' = true.
Proof.
  exact (reset_free_history
           [AddPoint 3 4 1; SetBox 1 2 3 4; AddPoint 5 6 0; SetBox 9 9 9 9]
           init eq_refl).
Defined.

(** ** Inference on one frame *)

Section SegmentProperties.

Context {Frame Mask Score : Type} `{Img : Imaging Frame Mask Score}.

Implicit Types (p : @Predictor Frame Mask Score) (snap : Snapshot).

(** X6.  What one call of [process_frame_with_sam] can send: nothing when it
    raises in the predictor, in indexing or in a drawing call, a count of 0
    with the frame returned untouched,
    a count of 1 followed by the score and the area of one mask with an
    overlay returned, or, in the box branch with no score to read, a count
    of 1 and then an [IndexError].  So a count is sent at most once, always
    first, and score and area only ever follow a count of 1. *)
Theorem telemetry_shapes p snap (frame : Frame) :
  let res := fst (segment p snap frame) in
  let sent := snd (segment p snap frame) in
  (sent = [] /\ exists e, res = inl e) \/
  (sent = [count_message 0] /\ res = inr frame) \/
  (exists score m viz,
      sent = [count_message 1; ("/sam/mask/0/score", OscFloat score);
              ("/sam/mask/0/area", OscFloat (area m))] /\
      res = inr viz) \/
  (sent = [count_message 1] /\ res = inl Py.IndexError /\
   snap_mode snap = "box").
Proof.
  cbv zeta. unfold segment, count_message.
  repeat match goal with
         | |- context [ match ?x with _ => _ end ] => destruct x eqn:?
         end;
    cbn [fst snd];
    first
      [ left; split; [ reflexivity | eexists; reflexivity ]
      | right; left; split; reflexivity
      | right; right; left; do 3 eexists; split; reflexivity
      | right; right; right; split; [ reflexivity | ];
        split; [ reflexivity | ]; now apply String.eqb_eq ].
Qed.

(** X7.  A count of 0 is what the call sends exactly when [set_image] returns
    and no usable prompt is there: the mode is auto, or it is none of the
    three known modes, or it is point with no point stored, or box with no
    box stored.  The frame then comes back untouched. *)
Theorem count_zero_iff p snap (frame : Frame) :
  snd (segment p snap frame) = [count_message 0] <->
  set_image p frame = None /\
  (snap_mode snap = "auto" \/
   (snap_mode snap <> "point" /\ snap_mode snap <> "box") \/
   (snap_mode snap = "point" /\ snap_points snap = None) \/
   (snap_mode snap = "box" /\ snap_box snap = None)).
Proof.
  unfold segment, count_message.
  destruct (set_image p frame) as [e | ];
    [ split; [ discriminate | intros [H _]; discriminate ] | ].
  destruct (String.eqb_spec (snap_mode snap) "auto") as [Ha | Ha];
    [ split; [ intros _; split; [ reflexivity | now left ] | reflexivity ] | ].
  destruct (String.eqb_spec (snap_mode snap) "point") as [Hp | Hp].
  - assert (Hnb : (snap_mode snap =? "box")%string = false)
      by (rewrite Hp; reflexivity).
    rewrite Hnb. destruct (snap_points snap) as [pts | ].
    + split.
      * intros H. exfalso.
        destruct (predict_points p frame pts (snap_labels snap))
          as [e | [masks scores]]; [ discriminate | ].
        destruct (argmax scores); [ | discriminate ].
        destruct (nth_error masks n); [ | discriminate ].
        destruct (nth_error scores n); [ | discriminate ].
        destruct (snap_labels snap) as [lbls | ]; [ | discriminate ].
        destruct (draw_points _ _); discriminate.
      * intros [_ [H | [[H _] | [[_ H] | [H _]]]]]; try contradiction;
          try discriminate. rewrite Hp in H. discriminate.
    + split; [ intros _; split; [ reflexivity | right; right; left; now split ]
             | reflexivity ].
  - destruct (String.eqb_spec (snap_mode snap) "box") as [Hb | Hb].
    + destruct (snap_box snap) as [b | ].
      * split.
        -- intros H. exfalso.
           destruct (predict_box p frame b) as [e | [masks scores]];
             [ discriminate | ].
           destruct (nth_error masks 0); [ | discriminate ].
           destruct b as [ | x1 [ | y1 [ | x2 [ | y2 b ] ] ] ];
             try discriminate.
           destruct (rectangle _ _ _ _); [ discriminate | ].
           destruct (nth_error scores 0); discriminate.
        -- intros [_ [H | [[_ H] | [[H _] | [_ H]]]]]; try contradiction;
             discriminate.
      * split; [ intros _; split; [ reflexivity | right; right; right; now split ]
               | reflexivity ].
    + split; [ intros _; split; [ reflexivity | right; left; now split ]
             | reflexivity ].
Qed.



End SegmentProperties.

(** ** The loop over many iterations *)

Section LoopFurther.

Context {Frame Mask Score : Type} `{Img : Imaging Frame Mask Score}.

Implicit Types (st : @LoopState Frame) (inp : @TickInput Frame Mask Score).
Implicit Types (inps : list (@TickInput Frame Mask Score)).

Lemma same_prompt_refl (s : PromptState) : same_prompt s s.
Proof. now repeat split. Qed.

Lemma same_prompt_trans (s1 s2 s3 : PromptState) :
  same_prompt s1 s2 -> same_prompt s2 s3 -> same_prompt s1 s3.
Proof.
  intros (A1 & A2 & A3 & A4 & A5) (B1 & B2 & B3 & B4 & B5).
  repeat split; congruence.
Qed.

Lemma same_prompt_consume (s : PromptState) :
  same_prompt (exec consume_update_flag s) s.
Proof. rewrite exec_consume. now repeat split. Qed.

Lemma same_prompt_calls (cs : list call) (s1 s2 : PromptState) :
  same_prompt s1 s2 -> same_prompt (apply_calls cs s1) (apply_calls cs s2).
Proof.
  revert s1 s2. induction cs as [ | c cs IH ]; intros s1 s2 H; [ exact H | ].
  unfold apply_calls. cbn [fold_left]. apply IH.
  destruct H as (H1 & H2 & H3 & H4 & H5). rewrite !exec_do_call.
  destruct c; cbn; repeat split; congruence.
Qed.

(** X9.  The loop never edits the prompt: after any run, whatever the frames
    and whatever the predictor did, the mode, points, labels and box are
    those the handler calls alone produce; the loop only clears the flag. *)
Theorem loop_never_edits_prompt inps :
  forall st,
    same_prompt (prompt_state (fst (run st inps)))
                (apply_calls (all_calls inps) (prompt_state st)).
Proof.
  induction inps as [ | a l IH ]; intros st; [ apply same_prompt_refl | ].
  rewrite run_cons. cbn [fst]. unfold all_calls. cbn [flat_map].
  fold (all_calls l). rewrite !apply_calls_app.
  eapply same_prompt_trans; [ apply IH | ].
  apply same_prompt_calls. rewrite tick_prompt_state.
  apply same_prompt_calls, same_prompt_consume.
Qed.

Lemma calls_set_flag (cs : list call) (s : PromptState) :
  cs <> [] -> needs_update (apply_calls cs s) = true.
Proof.
  intros H. destruct (exists_last H) as [front [c ->]].
  rewrite apply_calls_snoc. apply do_call_sets_flag.
Qed.

(** X10.  No edit is lost and none waits longer than one iteration: handler
    calls completed before the flag is read trigger inference in that very
    iteration; calls completed after the read trigger it in the next one,
    whatever else happens there. *)
Theorem edits_trigger_inference (cs : list call) :
  cs <> [] ->
  (forall st inp,
      osc_before inp = cs -> inference_ran (snd (tick st inp)) = true) /\
  (forall st inp next,
      osc_between inp = cs ->
      inference_ran (snd (tick (fst (tick st inp)) next)) = true).
Proof.
  intros Hne. split.
  - intros st inp Hb. rewrite tick_inference_ran. unfold dirty_read.
    now rewrite Hb, eval_consume, calls_set_flag.
  - intros st inp next Hb. rewrite tick_inference_ran. unfold dirty_read.
    rewrite eval_consume, tick_prompt_state, Hb.
    assert (F : forall s, needs_update (apply_calls (osc_before next) s) = true
                          \/ apply_calls (osc_before next) s = s).
    { intros s. destruct (osc_before next) as [ | c l ] eqn:E;
        [ now right | left; now apply calls_set_flag ]. }
    destruct (F (apply_calls cs
                   (exec consume_update_flag
                      (apply_calls (osc_before inp) (prompt_state st)))))
      as [-> | ->]; [ reflexivity | ].
    now rewrite calls_set_flag.
Qed.

Lemma frame_count_run_from st inps :
  frame_count (fst (run st inps)) = frame_count st + Z.of_nat (List.length inps).
Proof.
  revert st. induction inps as [ | a l IH ]; intros st; [ cbn; lia | ].
  rewrite run_cons. cbn [fst]. rewrite IH, tick_frame_count.
  cbn [List.length]. lia.
Qed.

Lemma run_split st before inp after :
  nth_error (snd (run st (before ++ inp :: after))) (List.length before)
  = Some (snd (tick (fst (run st before)) inp)).
Proof.
  rewrite run_app, run_cons. cbn [snd].
  assert (L : forall l s, List.length (snd (run s l)) = List.length l).
  { induction l as [ | a l IH ]; intros s; [ reflexivity | ].
    rewrite run_cons. cbn. now rewrite IH. }
  rewrite nth_error_app2; rewrite L; [ | lia ]. now rewrite Nat.sub_diag.
Qed.

(** X11.  The prompt is never staler than 30 iterations: among any 30 consecutive
    iterations, from any state of the loop, at least one runs inference,
    edits or not. *)
Theorem inference_every_30 st inps :
  List.length inps = 30%nat ->
  Exists (fun out => inference_ran out = true) (snd (run st inps)).
Proof.
  intros Hlen.
  set (j := Z.to_nat ((- frame_count st) mod 30)).
  assert (Hj : (j < 30)%nat).
  { unfold j. pose proof (Z.mod_pos_bound (- frame_count st) 30). lia. }
  assert (Hz : (frame_count st + Z.of_nat j) mod 30 = 0).
  { unfold j. rewrite Z2Nat.id
      by (pose proof (Z.mod_pos_bound (- frame_count st) 30); lia).
    rewrite Z.add_mod_idemp_r by lia.
    replace (frame_count st + - frame_count st) with 0 by lia. reflexivity. }
  destruct (nth_error inps j) as [inp | ] eqn:Ej.
  - destruct (nth_error_split inps j Ej) as (before & after & -> & Hb).
    apply Exists_exists. exists (snd (tick (fst (run st before)) inp)). split.
    + apply nth_error_In with (n := List.length before). apply run_split.
    + rewrite tick_inference_ran, frame_count_run_from, Hb.
      apply Z.eqb_eq in Hz. rewrite Hz. apply orb_true_r.
  - apply nth_error_None in Ej. lia.
Qed.

(** X12.  The two caches are never emptied: once a frame has been delivered, or
    an overlay computed, the loop holds one for ever after. *)
Theorem caches_never_emptied inps :
  forall st,
    (last_frame st <> None -> last_frame (fst (run st inps)) <> None) /\
    (last_mask_viz st <> None -> last_mask_viz (fst (run st inps)) <> None).
Proof.
  induction inps as [ | a l IH ]; intros st; [ now split | ].
  rewrite run_cons. cbn [fst]. destruct (IH (fst (tick st a))) as [IF IM].
  split; intros H.
  - apply IF. rewrite tick_last_frame. destruct (syphon a); try exact H.
    discriminate.
  - apply IM. rewrite tick_last_mask_viz.
    destruct (computed (snd (tick st a))); [ discriminate | exact H ].
Qed.

End LoopFurther.

(** ** Start-up and shutdown *)

Section ServingProperties.

Context {Frame Mask Score : Type} `{Img : Imaging Frame Mask Score}.
Context {Server Client : Type}.

Implicit Types (st : @LoopState Frame) (inp : @TickInput Frame Mask Score).

Lemma no_delivery_all_black (inps : list (@TickInput Frame Mask Score)) :
  Forall (fun inp => delivered (syphon inp) = false) inps ->
  last_frame (fst (run start inps)) = None /\
  Forall (fun out => frame_used out = zeros) (outputs inps).
Proof.
  induction inps as [ | a l IH ] using rev_ind; intros H.
  - split; [ reflexivity | constructor ].
  - apply Forall_app in H. destruct H as [Hl Ha]. apply Forall_inv in Ha.
    destruct (IH Hl) as [Hf Ho].
    rewrite state_snoc, outputs_snoc, tick_last_frame, Hf. split.
    + destruct (syphon a); try reflexivity. discriminate.
    + apply Forall_app. split; [ exact Ho | ]. constructor; [ | constructor ].
      rewrite tick_frame_used, Hf. destruct (syphon a); try reflexivity.
      discriminate.
Qed.

(** X13.  The input client is looked up once, before the loop.  If the lookup
    raises, finds no server of that name, or the client of the first server
    found cannot be created, the loop runs without a client and never gets
    one: whatever TouchDesigner sends later, every iteration processes the
    black placeholder. *)
Theorem no_client_all_black
        (servers_matching_name : Py.exn + list Server)
        (SyphonMetalClient : Server -> Py.exn + Client)
        (specs : list (@ClientAnswer Frame * list call * list call
                       * @Predictor Frame Mask Score)) :
  (exists e, servers_matching_name = inl e) \/
  servers_matching_name = inr [] \/
  (exists server rest e,
      servers_matching_name = inr (server :: rest) /\
      SyphonMetalClient server = inl e) ->
  let syphon_in := connect_input servers_matching_name SyphonMetalClient in
  syphon_in = None /\
  Forall (fun out => frame_used out = zeros)
         (outputs (map (iteration syphon_in) specs)).
Proof.
  intros H. cbv zeta.
  assert (E : connect_input servers_matching_name SyphonMetalClient = None).
  { destruct H as [[e ->] | [-> | (server & rest & e & -> & Hc)]];
      cbn; try reflexivity. now rewrite Hc. }
  split; [ exact E | ]. rewrite E. apply no_delivery_all_black.
  apply Forall_forall. intros inp Hin. apply in_map_iff in Hin.
  destruct Hin as ([[[a before] between] p] & <- & _). reflexivity.
Qed.

Lemma tick_read_error st (before between : list call)
      (p : @Predictor Frame Mask Score) :
  tick st (mkTickInput before between ReadError p)
  = tick st (mkTickInput before between NoFrame p).
Proof. reflexivity. Qed.

(** X14.  A failed read costs nothing but the frame: whether
    [has_new_frame], [new_frame_image] or the conversion raises, or the
    image is [None], the whole run of the loop, states and outputs, is the
    one it would be had the client answered that there is no new frame. *)
Theorem read_failure_is_gap (syphon_in : option Client)
        (specs : list (@ClientAnswer Frame * list call * list call
                       * @Predictor Frame Mask Score)) :
  forall st,
    run st (map (iteration syphon_in) specs) =
    run st (map (fun '(a, before, between, p) =>
                   iteration syphon_in (quiet_answer a, before, between, p))
                specs).
Proof.
  induction specs as [ | [[[a before] between] p] l IH ]; intros st;
    [ reflexivity | ].
  cbn [map]. rewrite !run_cons.
  assert (E : tick st (iteration syphon_in (a, before, between, p))
              = tick st (iteration syphon_in
                           (quiet_answer a, before, between, p))).
  { unfold iteration. destruct syphon_in as [client | ]; [ | reflexivity ].
    destruct a; cbn [read_frame quiet_answer];
      rewrite ?tick_read_error; reflexivity. }
  rewrite E, IH. reflexivity.
Qed.






(** X17.  Signals never change what a completed iteration hands out: the outputs
    under any schedule of signals are a prefix of those of the undisturbed
    loop on the same inputs. *)
Theorem signals_only_truncate (sched : list (@TickInput Frame Mask Score * nat)) :
  forall p st,
  exists rest,
    snd (run st (map fst sched)) = snd (serve p st sched) ++ rest.
Proof.
  induction sched as [ | [inp k] l IH ]; intros p st.
  - exists []. reflexivity.
  - cbn [map fst]. rewrite run_cons. cbn [serve snd].
    destruct (running p); [ | eexists; reflexivity ].
    destruct (exit_status (signals k p)); [ eexists; reflexivity | ].
    destruct (tick st inp) as [st1 out]. cbn [fst snd].
    destruct (IH (signals k p) st1) as [rest Hr].
    destruct (serve (signals k p) st1 l) as [[p2 st2] outs]. cbn [snd] in *.
    exists rest. now rewrite Hr.
Qed.

Lemma segment_no_prompt (p : @Predictor Frame Mask Score) (snap : Snapshot)
      (frame : Frame) :
  set_image p frame = None ->
  snap_points snap = None -> snap_box snap = None ->
  segment p snap frame = (inr frame, [count_message 0]).
Proof.
  intros Hs Hp Hb. unfold segment. rewrite Hs, Hp, Hb.
  destruct (snap_mode snap =? "auto")%string; [ reflexivity | ].
  destruct (snap_mode snap =? "point")%string;
    destruct (snap_mode snap =? "box")%string; reflexivity.
Qed.

(** X18.  After a reset the next inference is a pass-through: if the last handler
    call before an iteration reads the prompt is [clear] or [set_mode], for
    whichever mode, the iteration runs inference at once, [predict] is not
    called, the frame is handed out and cached untouched, and a mask count
    of 0 is sent, provided [set_image] returns. *)
Theorem reset_gives_pass_through st inp (cs : list call) (r : call) :
  osc_before inp = cs ++ [r] -> osc_between inp = [] ->
  is_reset r = true ->
  set_image (predictor inp) (frame_used (snd (tick st inp))) = None ->
  let out := snd (tick st inp) in
  inference_ran out = true /\ raised out = None /\
  mask_viz out = frame_used out /\
  telemetry out = [count_message 0] /\
  last_mask_viz (fst (tick st inp)) = Some (frame_used out).
Proof.
  intros Hb Hbt Hr Hs. cbv zeta.
  assert (Hran : inference_ran (snd (tick st inp)) = true).
  { rewrite tick_inference_ran. unfold dirty_read.
    rewrite Hb, eval_consume, calls_set_flag; [ reflexivity | ].
    destruct cs; discriminate. }
  destruct (tick_outcome st inp Hran) as [Ht Ho]. cbv zeta in Ht, Ho.
  assert (Hseg : segment (predictor inp) (prompt_read st inp)
                         (frame_used (snd (tick st inp)))
                 = (inr (frame_used (snd (tick st inp))), [count_message 0])).
  { apply segment_no_prompt; [ exact Hs | | ];
      unfold prompt_read; rewrite Hb, Hbt; cbn [apply_calls fold_left];
      rewrite eval_snapshot, exec_consume, apply_calls_snoc, exec_do_call;
      destruct r; try discriminate; reflexivity. }
  rewrite Hseg in Ht, Ho. cbn [fst snd] in Ht, Ho. destruct Ho as [Hn Hv].
  split; [ exact Hran | ]. split; [ exact Hn | ]. split; [ exact Hv | ].
  split; [ exact Ht | ].
  rewrite tick_last_mask_viz. unfold computed. now rewrite Hran, Hn, Hv.
Qed.

End ServingProperties.

(** ** More concrete runs *)

Module MoreRuns.

Import Demo.


Lemma edits_trigger_inference_witness :
  (forall (st : @LoopState picture) (inp : @TickInput picture nat Z),
      osc_before inp = [Clear] -> inference_ran (snd (tick st inp)) = true) /\
  (forall (st : @LoopState picture) (inp next : @TickInput picture nat Z),
      osc_between inp = [Clear] ->
      inference_ran (snd (tick (fst (tick st inp)) next)) = true).
Proof.
  apply (edits_trigger_inference [Clear]). discriminate.
Defined.

Lemma inference_every_30_witness :
  Exists (fun out => inference_ran out = true)
         (snd (run after_first (repeat idle 30))).
Proof.
  apply inference_every_30. vm_compute. reflexivity.
Defined.

Lemma caches_never_emptied_witness :
  last_frame (fst (run after_first (repeat idle 3))) <> None /\
  last_mask_viz (fst (run after_first (repeat idle 3))) <> None.
Proof.
  destruct (caches_never_emptied (repeat idle 3) after_first) as [F M].
  split; [ apply F | apply M ]; vm_compute; discriminate.
Defined.

Lemma no_client_all_black_witness :
  let syphon_in :=
    connect_input (Server := nat) (Client := nat) (inr [])
                  (fun n => inr n) in
  syphon_in = None /\
  Forall (fun out => frame_used out = zeros)
         (outputs (map (iteration syphon_in)
                       [(Converted (Camera 1), [], [], working);
                        (Converted (Camera 2), [Clear], [], working)])).
Proof.
  apply (no_client_all_black (Server := nat) (Client := nat)).
  right. left. reflexivity.
Defined.

Lemma reset_gives_pass_through_witness :
  let inp :=
    mkTickInput [AddPoint 3 4 1; SetMode "box"] [] (NewFrame (Camera 1)) working
  in
  let out := snd (tick start inp) in
  inference_ran out = true /\ raised out = None /\
  mask_viz out = frame_used out /\
  telemetry out = [count_message 0] /\
  last_mask_viz (fst (tick start inp)) = Some (frame_used out).
Proof.
  apply (reset_gives_pass_through start
           (mkTickInput [AddPoint 3 4 1; SetMode "box"] []
                        (NewFrame (Camera 1)) working)
           [AddPoint 3 4 1] (SetMode "box")); reflexivity.
Defined.

End MoreRuns.
